(** * rounded-polygon-ts: corner rounding, measuring, feature mapping and morphing

    A shallow embedding of the TypeScript sources of the shape library
    (utils, cubic, rounded-corner, feature, rounded-polygon, float-mapping,
    polygon-measure, feature-mapping, morph), the properties of its
    specification that were checked against it, and further laws of the
    code itself (C1 to C10 and X1 to X30 below).

    Numbers.  A JavaScript [number] is an IEEE 754 binary64 value.  The
    functions below are written once, over an interface [Arith] of the
    arithmetic the sources use, and the interface has two instances:
    - [binary64]: Rocq's primitive floats, the arithmetic the code runs on;
      every definition evaluates there, and concrete inputs are evaluated
      in it;
    - [exactR]: the real numbers, the arithmetic the specification speaks
      of ("Point: (x, y: real)"); laws that rest on an arithmetic identity
      are proved there.
    Properties that only depend on the control flow of the code are proved
    for every instance. *)

From Stdlib Require Import String.
From Stdlib Require Import ZArith List Bool Lia.
From Stdlib Require Import Floats.
From Stdlib Require Import Reals Lra.
Import ListNotations.

Set Implicit Arguments.

(** ** The arithmetic of a JavaScript number *)

Class Arith (num : Type) : Type := {
  ofZ : Z -> num;                 (* an integer literal *)
  nadd : num -> num -> num;       (* a + b *)
  nsub : num -> num -> num;       (* a - b *)
  nopp : num -> num;              (* - a *)
  nmul : num -> num -> num;       (* a * b *)
  ndiv : num -> num -> num;       (* a / b *)
  nrem : num -> num -> num;       (* a % b, the sign of the dividend *)
  nsqrt : num -> num;             (* Math.sqrt *)
  nabs : num -> num;              (* Math.abs *)
  nlt : num -> num -> bool;       (* a < b *)
  nle : num -> num -> bool;       (* a <= b *)
  neq : num -> num -> bool;       (* a === b, on numbers *)
  nmin : num -> num -> num;       (* Math.min *)
  nmax : num -> num -> num        (* Math.max *)
}.

Declare Scope num_scope.
Delimit Scope num_scope with num.
Notation "a + b" := (nadd a b) : num_scope.
Notation "a - b" := (nsub a b) : num_scope.
Notation "- a" := (nopp a) : num_scope.
Notation "a * b" := (nmul a b) : num_scope.
Notation "a / b" := (ndiv a b) : num_scope.
Notation "a <? b" := (nlt a b) : num_scope.
Notation "a <=? b" := (nle a b) : num_scope.
Notation "a >? b" := (nlt b a) : num_scope.
Notation "a >=? b" := (nle b a) : num_scope.
Notation "a ===? b" := (neq a b) (at level 70, no associativity) : num_scope.

(** *** binary64 *)

Module Binary64.

(** The number an integer literal denotes: the nearest binary64 value. *)
Definition of_Z (z : Z) : float := SF2Prim (binary_normalize prec emax z 0 false).

(** ECMAScript's [%] on numbers: the remainder of the truncated quotient,
    computed exactly; it is NaN for a NaN operand, an infinite dividend or
    a zero divisor, and the dividend itself for a zero dividend or an
    infinite divisor. *)
Definition rem (x y : float) : float :=
  match Prim2SF x, Prim2SF y with
  | S754_nan, _ | _, S754_nan => PrimFloat.nan
  | S754_infinity _, _ => PrimFloat.nan
  | _, S754_zero _ => PrimFloat.nan
  | S754_zero _, _ => x
  | S754_finite _ _ _, S754_infinity _ => x
  | S754_finite sx mx ex, S754_finite _ my ey =>
      let e := Z.min ex ey in
      let r := Z.modulo (Zpos mx * 2 ^ (ex - e)) (Zpos my * 2 ^ (ey - e)) in
      SF2Prim (binary_normalize prec emax (if sx then Z.opp r else r) e sx)
  end.

(** [Math.min] and [Math.max]: NaN if either argument is, and -0 below +0. *)
Definition min (a b : float) : float :=
  if PrimFloat.is_nan a || PrimFloat.is_nan b then PrimFloat.nan
  else if PrimFloat.ltb a b then a
  else if PrimFloat.ltb b a then b
  else if PrimFloat.get_sign a then a else b.

Definition max (a b : float) : float :=
  if PrimFloat.is_nan a || PrimFloat.is_nan b then PrimFloat.nan
  else if PrimFloat.ltb a b then b
  else if PrimFloat.ltb b a then a
  else if PrimFloat.get_sign a then b else a.

End Binary64.

#[export] Instance binary64 : Arith float := {|
  ofZ := Binary64.of_Z;
  nadd := PrimFloat.add;
  nsub := PrimFloat.sub;
  nopp := PrimFloat.opp;
  nmul := PrimFloat.mul;
  ndiv := PrimFloat.div;
  nrem := Binary64.rem;
  nsqrt := PrimFloat.sqrt;
  nabs := PrimFloat.abs;
  nlt := PrimFloat.ltb;
  nle := PrimFloat.leb;
  neq := PrimFloat.eqb;
  nmin := Binary64.min;
  nmax := Binary64.max
|}.

(** *** Exact real arithmetic *)

Module ExactR.

Definition ltb (a b : R) : bool := if Rlt_dec a b then true else false.
Definition leb (a b : R) : bool := if Rle_dec a b then true else false.
Definition eqb (a b : R) : bool := if Req_dec_T a b then true else false.

(** The integer part of [a], rounded towards zero. *)
Definition trunc (a : R) : Z :=
  if Rle_dec 0 a then Int_part a else Z.opp (Int_part (Ropp a)).

Definition rem (a b : R) : R := (a - b * IZR (trunc (a / b)))%R.

End ExactR.

#[export] Instance exactR : Arith R := {|
  ofZ := IZR;
  nadd := Rplus;
  nsub := Rminus;
  nopp := Ropp;
  nmul := Rmult;
  ndiv := Rdiv;
  nrem := ExactR.rem;
  nsqrt := R_sqrt.sqrt;
  nabs := Rabs;
  nlt := ExactR.ltb;
  nle := ExactR.leb;
  neq := ExactR.eqb;
  nmin := Rmin;
  nmax := Rmax
|}.

(** [Number.POSITIVE_INFINITY], for the arithmetics that have one. *)
Class Infinite (num : Type) : Type := { POSITIVE_INFINITY : num }.

#[export] Instance binary64_infinite : Infinite float :=
  {| POSITIVE_INFINITY := PrimFloat.infinity |}.

(** Errors: a [throw] ends the call with the thrown message. *)
Inductive result (A : Type) : Type :=
| Ok (a : A)
| Throw (message : string).
Arguments Ok {A} a.
Arguments Throw {A} message.

Definition bind {A B : Type} (r : result A) (k : A -> result B) : result B :=
  match r with
  | Ok a => k a
  | Throw m => Throw m
  end.

Notation "'do' x <- r ; k" := (bind r (fun x => k))
  (at level 10, x pattern, r at level 100, k at level 200).

(** ** The sources, over an arithmetic *)

Section Shape.
Context {num : Type} {A : Arith num}.
Local Open Scope num_scope.

(** *** utils.ts and point.ts *)

(** [1e-4] and [1e-6]: a decimal literal is the number nearest to the
    quotient of two integers, which is what the division returns. *)
Definition DistanceEpsilon : num := ofZ 1 / ofZ 10000.
Definition AngleEpsilon : num := ofZ 1 / ofZ 1000000.

Definition interpolate (start stop fraction : num) : num :=
  (ofZ 1 - fraction) * start + fraction * stop.

Definition distance (x y : num) : num := nsqrt (x * x + y * y).

Definition distanceSquared (x y : num) : num := x * x + y * y.

Definition positiveModulo (value modulus : num) : num :=
  nrem (nrem value modulus + modulus) modulus.

(** Modelled from the spec: the Point class (point.ts is not among the
    sources): "2D vector ops (add, subtract, scale, dot, distance,
    rotate 90 degrees, normalize, clockwise test, linear interpolation)"
    on an immutable pair of numbers. *)
Record Point : Type := mkPoint { x : num; y : num }.

(** Modelled from the spec: the methods of Point used by the sources
    (point.ts is not among them); [rotate90] turns (x, y) into (-y, x),
    [clockwise] tests the sign of the cross product and [getDirection]
    divides by the distance. *)
Definition Point_plus (p q : Point) : Point := mkPoint (x p + x q) (y p + y q).
Definition Point_minus (p q : Point) : Point := mkPoint (x p - x q) (y p - y q).
Definition Point_times (p : Point) (k : num) : Point := mkPoint (x p * k) (y p * k).
Definition Point_div (p : Point) (k : num) : Point := mkPoint (x p / k) (y p / k).
Definition Point_dotProduct (p q : Point) : num := x p * x q + y p * y q.
Definition Point_dotProductScalar (p : Point) (otherX otherY : num) : num :=
  x p * otherX + y p * otherY.
Definition Point_getDistance (p : Point) : num := distance (x p) (y p).
Definition Point_getDistanceSquared (p : Point) : num := distanceSquared (x p) (y p).
Definition Point_getDirection (p : Point) : Point := Point_div p (Point_getDistance p).
Definition Point_rotate90 (p : Point) : Point := mkPoint (- y p) (x p).
Definition Point_clockwise (p q : Point) : bool := x p * y q - y p * x q >? ofZ 0.
Definition Point_interpolate (start stop : Point) (fraction : num) : Point :=
  mkPoint (interpolate (x start) (x stop) fraction)
          (interpolate (y start) (y stop) fraction).

Definition directionVector (x y : num) : Point :=
  let d := distance x y in
  mkPoint (x / d) (y / d).

(** A missing array element read as a number ([undefined] in arithmetic). *)
Definition NaN : num := ofZ 0 / ofZ 0.

Definition Number_isNaN (v : num) : bool := negb (v ===? v).

Definition MIN_SAFE_INTEGER : num := ofZ (- (2 ^ 53 - 1)).
Definition MAX_SAFE_INTEGER : num := ofZ (2 ^ 53 - 1).
Definition MAX_VALUE : num := ofZ (2 ^ 1024 - 2 ^ 971).

Definition convex (previous current next : Point) : bool :=
  Point_clockwise (Point_minus current previous) (Point_minus next current).

(** [coerceIn(value, min, max?)].  The three-argument call passes two
    numbers; the two-argument call passes any value in the place of
    [min], which the code inspects at run time. *)
Inductive js_value : Type :=
| JsNumber (n : num)
| JsRange (start endInclusive : num)   (* an object with both fields *)
| JsOther.                             (* any other value *)

Inductive coerceIn_args : Type :=
| MinMax (min max : num)
| MinOnly (min : js_value).

Definition coerceIn (value : num) (args : coerceIn_args) : result num :=
  match args with
  | MinOnly (JsRange start endInclusive) =>
      Ok (nmax start (nmin endInclusive value))
  | MinOnly _ => Throw "Invalid arguments for coerceIn"
  | MinMax min max =>
      let '(actualMin, actualMax) := if min <=? max then (min, max) else (max, min) in
      Ok (nmax actualMin (nmin actualMax value))
  end.

(** *** cubic.ts *)

(** The eight numbers of [points], in the order of the array. *)
Record Cubic : Type := mkCubic {
  anchor0X : num; anchor0Y : num;
  control0X : num; control0Y : num;
  control1X : num; control1Y : num;
  anchor1X : num; anchor1Y : num
}.

Definition Cubic_create (anchor0 control0 control1 anchor1 : Point) : Cubic :=
  mkCubic (x anchor0) (y anchor0) (x control0) (y control0)
          (x control1) (y control1) (x anchor1) (y anchor1).

Definition pointOnCurve (this : Cubic) (t : num) : Point :=
  let u := ofZ 1 - t in
  mkPoint
    (anchor0X this * (u * u * u) +
     control0X this * (ofZ 3 * t * u * u) +
     control1X this * (ofZ 3 * t * t * u) +
     anchor1X this * (t * t * t))
    (anchor0Y this * (u * u * u) +
     control0Y this * (ofZ 3 * t * u * u) +
     control1Y this * (ofZ 3 * t * t * u) +
     anchor1Y this * (t * t * t)).

Definition zeroLength (this : Cubic) : bool :=
  (nabs (anchor0X this - anchor1X this) <? DistanceEpsilon) &&
  (nabs (anchor0Y this - anchor1Y this) <? DistanceEpsilon).

Definition split (this : Cubic) (t : num) : Cubic * Cubic :=
  let u := ofZ 1 - t in
  let pointOnCurve := pointOnCurve this t in
  (mkCubic
     (anchor0X this)
     (anchor0Y this)
     (anchor0X this * u + control0X this * t)
     (anchor0Y this * u + control0Y this * t)
     (anchor0X this * (u * u) + control0X this * (ofZ 2 * u * t) + control1X this * (t * t))
     (anchor0Y this * (u * u) + control0Y this * (ofZ 2 * u * t) + control1Y this * (t * t))
     (x pointOnCurve)
     (y pointOnCurve),
   mkCubic
     (x pointOnCurve)
     (y pointOnCurve)
     (control0X this * (u * u) + control1X this * (ofZ 2 * u * t) + anchor1X this * (t * t))
     (control0Y this * (u * u) + control1Y this * (ofZ 2 * u * t) + anchor1Y this * (t * t))
     (control1X this * u + anchor1X this * t)
     (control1Y this * u + anchor1Y this * t)
     (anchor1X this)
     (anchor1Y this)).

Definition reverse (this : Cubic) : Cubic :=
  mkCubic (anchor1X this) (anchor1Y this) (control1X this) (control1Y this)
          (control0X this) (control0Y this) (anchor0X this) (anchor0Y this).

Definition straightLine (x0 y0 x1 y1 : num) : Cubic :=
  mkCubic
    x0
    y0
    (interpolate x0 x1 (ofZ 1 / ofZ 3))
    (interpolate y0 y1 (ofZ 1 / ofZ 3))
    (interpolate x0 x1 (ofZ 2 / ofZ 3))
    (interpolate y0 y1 (ofZ 2 / ofZ 3))
    x1
    y1.

Definition circularArc (centerX centerY x0 y0 x1 y1 : num) : Cubic :=
  let p0d := directionVector (x0 - centerX) (y0 - centerY) in
  let p1d := directionVector (x1 - centerX) (y1 - centerY) in
  let rotatedP0 := Point_rotate90 p0d in
  let rotatedP1 := Point_rotate90 p1d in
  let clockwise := Point_dotProductScalar rotatedP0 (x1 - centerX) (y1 - centerY) >=? ofZ 0 in
  let cosa := Point_dotProduct p0d p1d in
  if cosa >? ofZ 999 / ofZ 1000 then straightLine x0 y0 x1 y1
  else
    let k := distance (x0 - centerX) (y0 - centerY) * ofZ 4 / ofZ 3 *
             (nsqrt (ofZ 2 * (ofZ 1 - cosa)) - nsqrt (ofZ 1 - cosa * cosa)) /
             (ofZ 1 - cosa) * (if clockwise then ofZ 1 else ofZ (-1)) in
    mkCubic
      x0
      y0
      (x0 + x rotatedP0 * k)
      (y0 + y rotatedP0 * k)
      (x1 - x rotatedP1 * k)
      (y1 - y rotatedP1 * k)
      x1
      y1.

Definition Cubic_empty (x0 y0 : num) : Cubic :=
  mkCubic x0 y0 x0 y0 x0 y0 x0 y0.

(** [MutableCubic.interpolate(c1, c2, progress)] overwrites the eight
    numbers of the receiver; the function gives the receiver after the
    call, which does not depend on what it held before. *)
Definition MutableCubic_interpolate (this c1 c2 : Cubic) (progress : num) : Cubic :=
  mkCubic
    (interpolate (anchor0X c1) (anchor0X c2) progress)
    (interpolate (anchor0Y c1) (anchor0Y c2) progress)
    (interpolate (control0X c1) (control0X c2) progress)
    (interpolate (control0Y c1) (control0Y c2) progress)
    (interpolate (control1X c1) (control1X c2) progress)
    (interpolate (control1Y c1) (control1Y c2) progress)
    (interpolate (anchor1X c1) (anchor1X c2) progress)
    (interpolate (anchor1Y c1) (anchor1Y c2) progress).

(** *** corner-rounding.ts and rounded-corner.ts *)

Record CornerRounding : Type := mkCornerRounding { radius : num; smoothing : num }.

Definition Unrounded : CornerRounding := mkCornerRounding (ofZ 0) (ofZ 0).

Record RoundedCorner : Type := mkRoundedCorner {
  p0 : Point; p1 : Point; p2 : Point;
  rounding : option CornerRounding;
  d1 : Point;
  d2 : Point;
  cornerRadius : num;
  cornerSmoothing : num;           (* the field [smoothing] *)
  cosAngle : num;
  sinAngle : num;
  expectedRoundCut : num;
  center : Point
}.

Definition expectedCut (this : RoundedCorner) : num :=
  (ofZ 1 + cornerSmoothing this) * expectedRoundCut this.

(** The constructor.  [Math.pow(c, 2)] is written [c * c]. *)
Definition RoundedCorner_new (p0 p1 p2 : Point) (rounding : option CornerRounding)
  : RoundedCorner :=
  let v01 := Point_minus p0 p1 in
  let v21 := Point_minus p2 p1 in
  let d01 := Point_getDistance v01 in
  let d21 := Point_getDistance v21 in
  if (d01 >? ofZ 0) && (d21 >? ofZ 0) then
    let d1 := Point_div v01 d01 in
    let d2 := Point_div v21 d21 in
    let cornerRadius := match rounding with Some r => radius r | None => ofZ 0 end in
    let smoothing := match rounding with Some r => smoothing r | None => ofZ 0 end in
    let cosAngle := Point_dotProduct d1 d2 in
    let sinAngle := nsqrt (ofZ 1 - cosAngle * cosAngle) in
    let expectedRoundCut :=
      if sinAngle >? ofZ 1 / ofZ 1000
      then cornerRadius * (cosAngle + ofZ 1) / sinAngle
      else ofZ 0 in
    mkRoundedCorner p0 p1 p2 rounding d1 d2 cornerRadius smoothing
                    cosAngle sinAngle expectedRoundCut (mkPoint (ofZ 0) (ofZ 0))
  else
    mkRoundedCorner p0 p1 p2 rounding (mkPoint (ofZ 0) (ofZ 0)) (mkPoint (ofZ 0) (ofZ 0))
                    (ofZ 0) (ofZ 0) (ofZ 0) (ofZ 0) (ofZ 0) (mkPoint (ofZ 0) (ofZ 0)).

Definition calculateActualSmoothingValue (this : RoundedCorner) (allowedCut : num) : num :=
  if allowedCut >? expectedCut this then cornerSmoothing this
  else if allowedCut >? expectedRoundCut this then
    cornerSmoothing this * (allowedCut - expectedRoundCut this) /
    (expectedCut this - expectedRoundCut this)
  else ofZ 0.

Definition lineIntersection (p0 d0 p1 d1 : Point) : option Point :=
  let rotatedD1 := Point_rotate90 d1 in
  let den := Point_dotProduct d0 rotatedD1 in
  if nabs den <? DistanceEpsilon then None
  else
    let num' := Point_dotProduct (Point_minus p1 p0) rotatedD1 in
    if nabs den <? DistanceEpsilon * nabs num' then None
    else
      let k := num' / den in
      Some (Point_plus p0 (Point_times d0 k)).

Definition computeFlankingCurve
    (actualRoundCut actualSmoothingValues : num)
    (corner sideStart circleSegmentIntersection otherCircleSegmentIntersection
       circleCenter : Point)
    (actualR : num) : Cubic :=
  let sideDirection := Point_getDirection (Point_minus sideStart corner) in
  let curveStart :=
    Point_plus corner
      (Point_times sideDirection (actualRoundCut * (ofZ 1 + actualSmoothingValues))) in
  let p :=
    Point_interpolate
      circleSegmentIntersection
      (Point_div (Point_plus circleSegmentIntersection otherCircleSegmentIntersection) (ofZ 2))
      actualSmoothingValues in
  let curveEnd :=
    Point_plus circleCenter
      (Point_times (directionVector (x p - x circleCenter) (y p - y circleCenter)) actualR) in
  let circleTangent := Point_rotate90 (Point_minus curveEnd circleCenter) in
  let anchorEnd :=
    match lineIntersection sideStart sideDirection curveEnd circleTangent with
    | Some q => q
    | None => circleSegmentIntersection
    end in
  let anchorStart := Point_div (Point_plus curveStart (Point_times anchorEnd (ofZ 2))) (ofZ 3) in
  Cubic_create curveStart anchorStart anchorEnd curveEnd.

(** [getCubics(allowedCut0, allowedCut1)] assigns [this.center] and returns
    an array: the result is the receiver after the call and the array.
    [Math.pow(v, 2)] is written [v * v]. *)
Definition getCubics (this : RoundedCorner) (allowedCut0 allowedCut1 : num)
  : RoundedCorner * list Cubic :=
  let set_center c :=
    mkRoundedCorner (p0 this) (p1 this) (p2 this) (rounding this) (d1 this) (d2 this)
                    (cornerRadius this) (cornerSmoothing this) (cosAngle this)
                    (sinAngle this) (expectedRoundCut this) c in
  let allowedCut := nmin allowedCut0 allowedCut1 in
  if (expectedRoundCut this <? DistanceEpsilon) ||
     (allowedCut <? DistanceEpsilon) ||
     (cornerRadius this <? DistanceEpsilon)
  then
    (set_center (p1 this),
     [straightLine (x (p1 this)) (y (p1 this)) (x (p1 this)) (y (p1 this))])
  else
    let actualRoundCut := nmin allowedCut (expectedRoundCut this) in
    let actualSmoothing0 := calculateActualSmoothingValue this allowedCut0 in
    let actualSmoothing1 := calculateActualSmoothingValue this allowedCut1 in
    let actualR := cornerRadius this * actualRoundCut / expectedRoundCut this in
    let centerDistance := nsqrt (actualR * actualR + actualRoundCut * actualRoundCut) in
    let center :=
      Point_plus (p1 this)
        (Point_times
           (Point_getDirection (Point_div (Point_plus (d1 this) (d2 this)) (ofZ 2)))
           centerDistance) in
    let circleIntersection0 := Point_plus (p1 this) (Point_times (d1 this) actualRoundCut) in
    let circleIntersection2 := Point_plus (p1 this) (Point_times (d2 this) actualRoundCut) in
    let flanking0 :=
      computeFlankingCurve actualRoundCut actualSmoothing0 (p1 this) (p0 this)
        circleIntersection0 circleIntersection2 center actualR in
    let flanking2 :=
      reverse
        (computeFlankingCurve actualRoundCut actualSmoothing1 (p1 this) (p2 this)
           circleIntersection2 circleIntersection0 center actualR) in
    (set_center center,
     [flanking0;
      circularArc (x center) (y center)
        (anchor1X flanking0) (anchor1Y flanking0)
        (anchor0X flanking2) (anchor0Y flanking2);
      flanking2]).

(** *** feature.ts *)

Inductive Feature : Type :=
| Edge (cubics : list Cubic)
| Corner (cubics : list Cubic) (isConvex : bool).

Definition Feature_cubics (f : Feature) : list Cubic :=
  match f with
  | Edge cubics => cubics
  | Corner cubics _ => cubics
  end.

Definition instanceof_Corner (f : Feature) : bool :=
  match f with
  | Corner _ _ => true
  | Edge _ => false
  end.

(** *** rounded-polygon.ts *)

Record RoundedPolygon : Type := mkRoundedPolygon {
  features : list Feature;
  polygonCenter : Point;           (* the field [center] *)
  cubics : list Cubic
}.

(** The variables of the loops of [buildCubicList]. *)
Record BuildState : Type := mkBuildState {
  result_ : list Cubic;
  firstCubic : option Cubic;
  lastCubic : option Cubic
}.

(** The body of the inner loop, for one cubic of a feature. *)
Definition buildCubicList_step (st : BuildState) (cubic : Cubic) : BuildState :=
  if negb (zeroLength cubic) then
    mkBuildState
      (match lastCubic st with
       | Some l => result_ st ++ [l]
       | None => result_ st
       end)
      (match firstCubic st with
       | None => Some cubic
       | Some f => Some f
       end)
      (Some cubic)
  else
    match lastCubic st with
    | Some l =>
        mkBuildState (result_ st) (firstCubic st)
          (Some (mkCubic (anchor0X l) (anchor0Y l) (control0X l) (control0Y l)
                         (control1X l) (control1Y l) (anchor1X cubic) (anchor1Y cubic)))
    | None => st
    end.

(** [featureCubics] at index [i] of the outer loop; [None] is the [break],
    which can only happen at the last index. *)
Definition featureCubicsAt (features : list Feature)
    (firstFeatureSplitStart firstFeatureSplitEnd : option (list Cubic)) (i : nat)
  : option (list Cubic) :=
  match i, firstFeatureSplitEnd with
  | O, Some e => Some e
  | _, _ =>
      if Nat.eqb i (length features) then firstFeatureSplitStart
      else option_map Feature_cubics (nth_error features i)
  end.

Definition buildCubicList (features : list Feature) (center : Point) : list Cubic :=
  let '(firstFeatureSplitStart, firstFeatureSplitEnd) :=
    match features with
    | f0 :: _ =>
        match Feature_cubics f0 with
        | [c0; centerCubic; c2] =>
            let '(start, end_) := split centerCubic (ofZ 5 / ofZ 10) in
            (Some [c0; start], Some [end_; c2])
        | _ => (None, None)
        end
    | [] => (None, None)
    end in
  let st :=
    fold_left
      (fun st i =>
         match featureCubicsAt features firstFeatureSplitStart firstFeatureSplitEnd i with
         | Some featureCubics => fold_left buildCubicList_step featureCubics st
         | None => st
         end)
      (seq 0 (S (length features)))
      (mkBuildState [] None None) in
  match lastCubic st, firstCubic st with
  | Some l, Some f =>
      result_ st ++
      [mkCubic (anchor0X l) (anchor0Y l) (control0X l) (control0Y l)
               (control1X l) (control1Y l) (anchor0X f) (anchor0Y f)]
  | _, _ =>
      result_ st ++
      [mkCubic (x center) (y center) (x center) (y center)
               (x center) (y center) (x center) (y center)]
  end.

Definition RoundedPolygon_new (features : list Feature) (center : Point) : RoundedPolygon :=
  mkRoundedPolygon features center (buildCubicList features center).

Definition calculateCenter (vertices : list num) : Point :=
  let fix loop (vs : list num) (cumulativeX cumulativeY : num) : num * num :=
    match vs with
    | vx :: vy :: rest => loop rest (cumulativeX + vx) (cumulativeY + vy)
    | [vx] => (cumulativeX + vx, cumulativeY + NaN)
    | [] => (cumulativeX, cumulativeY)
    end in
  let '(cumulativeX, cumulativeY) := loop vertices (ofZ 0) (ofZ 0) in
  let half := ofZ (Z.of_nat (length vertices)) / ofZ 2 in
  mkPoint (cumulativeX / half) (cumulativeY / half).

Definition fromFeatures (features : list Feature) (centerX centerY : num) : RoundedPolygon :=
  let vertices :=
    flat_map (fun feature =>
                flat_map (fun cubic => [anchor0X cubic; anchor0Y cubic])
                         (Feature_cubics feature))
             features in
  let centerX := if Number_isNaN centerX then x (calculateCenter vertices) else centerX in
  let centerX := if Number_isNaN centerY then y (calculateCenter vertices) else centerX in
  RoundedPolygon_new features (mkPoint centerX centerY).

(** Array reads of [fromVertices].  [vertices] holds an even number of
    coordinates and [n] is half of it, so every index computed below is in
    range; the defaults stand for [undefined]. *)
Definition vertexAt (vertices : list num) (k : nat) : num := nth k vertices NaN.

Definition cornerAt (roundedCorners : list RoundedCorner) (k : nat) : RoundedCorner :=
  nth k roundedCorners
      (RoundedCorner_new (mkPoint NaN NaN) (mkPoint NaN NaN) (mkPoint NaN NaN) None).

Definition at_first (cs : list Cubic) : Cubic := hd (Cubic_empty NaN NaN) cs.
Definition at_last (cs : list Cubic) : Cubic := last cs (Cubic_empty NaN NaN).

(** [fromVertices(vertices, rounding, perVertexRounding, centerX, centerY)];
    a call that leaves the center out passes the defaults
    [MIN_SAFE_INTEGER] and [MAX_SAFE_INTEGER]. *)
Definition fromVertices (vertices : list num) (rounding : CornerRounding)
    (perVertexRounding : option (list CornerRounding)) (centerX centerY : num)
  : RoundedPolygon :=
  let n := (length vertices / 2)%nat in
  let roundedCorners :=
    map (fun i =>
           let vtxRounding :=
             match perVertexRounding with
             | Some l => nth i l rounding
             | None => rounding
             end in
           let prevIndex := (((i + n - 1) mod n) * 2)%nat in
           let nextIndex := (((i + 1) mod n) * 2)%nat in
           RoundedCorner_new
             (mkPoint (vertexAt vertices prevIndex) (vertexAt vertices (prevIndex + 1)))
             (mkPoint (vertexAt vertices (i * 2)) (vertexAt vertices (i * 2 + 1)))
             (mkPoint (vertexAt vertices nextIndex) (vertexAt vertices (nextIndex + 1)))
             (Some vtxRounding))
        (seq 0 n) in
  let cutAdjusts :=
    map (fun ix =>
           let expectedRoundCut :=
             expectedRoundCut (cornerAt roundedCorners ix) +
             expectedRoundCut (cornerAt roundedCorners ((ix + 1) mod n)) in
           let expectedCut :=
             expectedCut (cornerAt roundedCorners ix) +
             expectedCut (cornerAt roundedCorners ((ix + 1) mod n)) in
           let vtxX := vertexAt vertices (ix * 2) in
           let vtxY := vertexAt vertices (ix * 2 + 1) in
           let nextVtxX := vertexAt vertices (((ix + 1) mod n) * 2) in
           let nextVtxY := vertexAt vertices (((ix + 1) mod n) * 2 + 1) in
           let sideSize := distance (vtxX - nextVtxX) (vtxY - nextVtxY) in
           if expectedRoundCut >? sideSize then
             (sideSize / expectedRoundCut, ofZ 0)
           else if expectedCut >? sideSize then
             (ofZ 1, (sideSize - expectedRoundCut) / (expectedCut - expectedRoundCut))
           else
             (ofZ 1, ofZ 1))
        (seq 0 n) in
  let corners :=
    map (fun i =>
           let allowedCuts :=
             map (fun delta =>
                    let '(roundCutRatio, cutRatio) :=
                      nth ((i + n - 1 + delta) mod n) cutAdjusts (NaN, NaN) in
                    expectedRoundCut (cornerAt roundedCorners i) * roundCutRatio +
                    (expectedCut (cornerAt roundedCorners i) -
                     expectedRoundCut (cornerAt roundedCorners i)) * cutRatio)
                 [0%nat; 1%nat] in
           snd (getCubics (cornerAt roundedCorners i)
                          (nth 0 allowedCuts NaN) (nth 1 allowedCuts NaN)))
        (seq 0 n) in
  let tempFeatures :=
    flat_map (fun i =>
                let prevVtxIndex := ((i + n - 1) mod n)%nat in
                let nextVtxIndex := ((i + 1) mod n)%nat in
                let currVertex :=
                  mkPoint (vertexAt vertices (i * 2)) (vertexAt vertices (i * 2 + 1)) in
                let prevVertex :=
                  mkPoint (vertexAt vertices (prevVtxIndex * 2))
                          (vertexAt vertices (prevVtxIndex * 2 + 1)) in
                let nextVertex :=
                  mkPoint (vertexAt vertices (nextVtxIndex * 2))
                          (vertexAt vertices (nextVtxIndex * 2 + 1)) in
                let cnvx := convex prevVertex currVertex nextVertex in
                [Corner (nth i corners []) cnvx;
                 Edge [straightLine
                         (anchor1X (at_last (nth i corners [])))
                         (anchor1Y (at_last (nth i corners [])))
                         (anchor0X (at_first (nth ((i + 1) mod n) corners [])))
                         (anchor0Y (at_first (nth ((i + 1) mod n) corners [])))]])
             (seq 0 n) in
  let center :=
    if (centerX ===? MIN_SAFE_INTEGER) || (centerY ===? MIN_SAFE_INTEGER)
    then calculateCenter vertices
    else mkPoint centerX centerY in
  fromFeatures tempFeatures (x center) (y center).

Definition rectangle (width height : num) (rounding : CornerRounding)
    (perVertexRounding : option (list CornerRounding)) (centerX centerY : num)
  : RoundedPolygon :=
  let left := centerX - width / ofZ 2 in
  let top := centerY - height / ofZ 2 in
  let right := centerX + width / ofZ 2 in
  let bottom := centerY + height / ofZ 2 in
  fromVertices [right; bottom; left; bottom; left; top; right; top]
               rounding perVertexRounding centerX centerY.

(** [Math.cos], [Math.sin] and [Math.PI] of the host. *)
Variable Math_cos Math_sin : num -> num.
Variable Math_PI : num.

Definition radialToCartesian (radius angleRadians : num) (center : Point) : Point :=
  Point_plus (Point_times (mkPoint (Math_cos angleRadians) (Math_sin angleRadians)) radius)
             center.

Definition starVerticesFromNumVerts (numVerticesPerRadius : nat)
    (radius innerRadius centerX centerY : num) : list num :=
  let count := ofZ (Z.of_nat numVerticesPerRadius) in
  flat_map (fun i =>
              let i := ofZ (Z.of_nat i) in
              let vertex :=
                radialToCartesian radius (Math_PI / count * ofZ 2 * i)
                                  (mkPoint (ofZ 0) (ofZ 0)) in
              let vertex' :=
                radialToCartesian innerRadius (Math_PI / count * (ofZ 2 * i + ofZ 1))
                                  (mkPoint (ofZ 0) (ofZ 0)) in
              [x vertex + centerX; y vertex + centerY;
               x vertex' + centerX; y vertex' + centerY])
           (seq 0 numVerticesPerRadius).

(** In [star], [Array.from({ length })] reads an identifier [length] that
    the module does not declare: it is looked up in the global object, and
    the read throws when the host has no such global. *)
Variable global_length : option nat.

Definition star (numVerticesPerRadius : nat) (radius innerRadius : num)
    (rounding : CornerRounding) (innerRounding : option CornerRounding)
    (perVertexRounding : option (list CornerRounding)) (centerX centerY : num)
  : result RoundedPolygon :=
  do pvRounding <-
    match perVertexRounding, innerRounding with
    | None, Some innerRounding =>
        match global_length with
        | Some len =>
            Ok (Some (flat_map (fun _ => [rounding; innerRounding]) (seq 0 len)))
        | None => Throw "ReferenceError: length is not defined"
        end
    | _, _ => Ok perVertexRounding
    end;
  Ok (fromVertices
        (starVerticesFromNumVerts numVerticesPerRadius radius innerRadius centerX centerY)
        rounding perVertexRounding centerX centerY).

(** *** float-mapping.ts *)

Definition progressInRange (progress progressFrom progressTo : num) : bool :=
  if progressTo >=? progressFrom
  then (progress >=? progressFrom) && (progress <=? progressTo)
  else (progress >=? progressFrom) || (progress <=? progressTo).

(** [Array.prototype.findIndex]; [None] is the result -1. *)
Fixpoint findIndex {T : Type} (p : T -> bool) (l : list T) : option nat :=
  match l with
  | [] => None
  | v :: l' => if p v then Some O else option_map S (findIndex p l')
  end.

Definition linearMap (xValues yValues : list num) (x : num) : result num :=
  let n := length xValues in
  match findIndex
          (fun i => progressInRange x (nth i xValues NaN) (nth ((i + 1) mod n) xValues NaN))
          (seq 0 n) with
  | None => Throw "No valid segment found"
  | Some segmentStartIndex =>
      let segmentEndIndex := ((segmentStartIndex + 1) mod n)%nat in
      let segmentSizeX :=
        positiveModulo (nth segmentEndIndex xValues NaN - nth segmentStartIndex xValues NaN)
                       (ofZ 1) in
      let segmentSizeY :=
        positiveModulo (nth segmentEndIndex yValues NaN - nth segmentStartIndex yValues NaN)
                       (ofZ 1) in
      let positionInSegment :=
        if segmentSizeX <? ofZ 1 / ofZ 1000 then ofZ 5 / ofZ 10
        else positiveModulo (x - nth segmentStartIndex xValues NaN) (ofZ 1) / segmentSizeX in
      Ok (positiveModulo (nth segmentStartIndex yValues NaN + segmentSizeY * positionInSegment)
                         (ofZ 1))
  end.

(** A mapping [{ a, b }] is the pair [(a, b)]. *)
Record DoubleMapper : Type := mkDoubleMapper {
  sourceValues : list num;
  targetValues : list num
}.

Definition DoubleMapper_new (mappings : list (num * num)) : DoubleMapper :=
  mkDoubleMapper (map fst mappings) (map snd mappings).

Definition DoubleMapper_map (this : DoubleMapper) (x : num) : result num :=
  linearMap (sourceValues this) (targetValues this) x.

Definition DoubleMapper_mapBack (this : DoubleMapper) (x : num) : result num :=
  linearMap (targetValues this) (sourceValues this) x.

Definition IdentityMapping : list (num * num) :=
  [(ofZ 0, ofZ 0); (ofZ 5 / ofZ 10, ofZ 5 / ofZ 10)].

(** *** polygon-measure.ts *)

Record Measurer : Type := mkMeasurer {
  measureCubic : Cubic -> num;
  findCubicCutPoint : Cubic -> num -> num
}.

Record ProgressableFeature : Type := mkProgressableFeature {
  progress : num;
  feature : Feature
}.

(** A measured cubic reaches its measurer through its polygon; here the
    measurer is passed to the methods that use it. *)
Record MeasuredCubic : Type := mkMeasuredCubic {
  cubic : Cubic;
  startOutlineProgress : num;
  endOutlineProgress : num;
  measuredSize : num
}.

Definition MeasuredCubic_new (measurer : Measurer) (cubic : Cubic)
    (startOutlineProgress endOutlineProgress : num) : MeasuredCubic :=
  mkMeasuredCubic cubic startOutlineProgress endOutlineProgress
                  (measureCubic measurer cubic).

Definition updateProgressRange (this : MeasuredCubic)
    (startOutlineProgress endOutlineProgress : num) : MeasuredCubic :=
  mkMeasuredCubic (cubic this) startOutlineProgress endOutlineProgress (measuredSize this).

Definition cutAtProgress (measurer : Measurer) (this : MeasuredCubic)
    (cutOutlineProgress : num) : result (MeasuredCubic * MeasuredCubic) :=
  do boundedCutOutlineProgress <-
    coerceIn cutOutlineProgress
             (MinMax (startOutlineProgress this) (endOutlineProgress this));
  let outlineProgressSize := endOutlineProgress this - startOutlineProgress this in
  let progressFromStart := boundedCutOutlineProgress - startOutlineProgress this in
  let relativeProgress := progressFromStart / outlineProgressSize in
  let t := findCubicCutPoint measurer (cubic this) (relativeProgress * measuredSize this) in
  let '(c1, c2) := split (cubic this) t in
  Ok (MeasuredCubic_new measurer c1 (startOutlineProgress this) boundedCutOutlineProgress,
      MeasuredCubic_new measurer c2 boundedCutOutlineProgress (endOutlineProgress this)).

Record MeasuredPolygon : Type := mkMeasuredPolygon {
  measurer : Measurer;
  measuredFeatures : list ProgressableFeature;     (* the field [features] *)
  measuredCubics : list MeasuredCubic;             (* the field [cubics] *)
  outlineProgress : list num
}.

(** The loop of the constructor, from index [i] on. *)
Fixpoint MeasuredPolygon_loop (measurer : Measurer) (outlineProgress : list num)
    (cubics : list Cubic) (i : nat) (startOutlineProgress : num)
    (measuredCubics : list MeasuredCubic) : list MeasuredCubic :=
  match cubics with
  | [] => measuredCubics
  | c :: rest =>
      if (nth (i + 1) outlineProgress NaN - nth i outlineProgress NaN) >? DistanceEpsilon
      then
        MeasuredPolygon_loop measurer outlineProgress rest (S i)
          (nth (i + 1) outlineProgress NaN)
          (measuredCubics ++
           [MeasuredCubic_new measurer c startOutlineProgress (nth (i + 1) outlineProgress NaN)])
      else
        MeasuredPolygon_loop measurer outlineProgress rest (S i)
          startOutlineProgress measuredCubics
  end.

(** The constructor; it reads the last measured cubic, and throws when
    there is none. *)
Definition MeasuredPolygon_new (measurer : Measurer) (features : list ProgressableFeature)
    (cubics : list Cubic) (outlineProgress : list num) : result MeasuredPolygon :=
  let measuredCubics :=
    MeasuredPolygon_loop measurer outlineProgress cubics 0 (ofZ 0) [] in
  match rev measuredCubics with
  | [] => Throw "TypeError: measuredCubics[-1] is undefined"
  | lastMeasured :: front =>
      Ok (mkMeasuredPolygon measurer features
            (rev front ++
             [updateProgressRange lastMeasured (startOutlineProgress lastMeasured) (ofZ 1)])
            outlineProgress)
  end.

Definition measuredAt (l : list MeasuredCubic) (k : nat) : MeasuredCubic :=
  nth k l (mkMeasuredCubic (Cubic_empty NaN NaN) NaN NaN NaN).

Definition cutAndShift (this : MeasuredPolygon) (cuttingPoint : num)
  : result MeasuredPolygon :=
  if cuttingPoint <? DistanceEpsilon then Ok this
  else
    match findIndex
            (fun it => (cuttingPoint >=? startOutlineProgress it) &&
                       (cuttingPoint <=? endOutlineProgress it))
            (measuredCubics this) with
    | None => Throw "TypeError: target is undefined"
    | Some targetIndex =>
        let len := length (measuredCubics this) in
        let target := measuredAt (measuredCubics this) targetIndex in
        do (b1, b2) <- cutAtProgress (measurer this) target cuttingPoint;
        let retCubics :=
          [cubic b2] ++
          map (fun i => cubic (measuredAt (measuredCubics this) ((i + targetIndex) mod len)))
              (seq 1 (len - 1)) ++
          [cubic b1] in
        let retOutlineProgress :=
          map (fun i =>
                 if Nat.eqb i 0 then ofZ 0
                 else if Nat.eqb i (len + 1) then ofZ 1
                 else
                   let cubicIndex := ((targetIndex + i - 1) mod len)%nat in
                   positiveModulo
                     (endOutlineProgress (measuredAt (measuredCubics this) cubicIndex) -
                      cuttingPoint)
                     (ofZ 1))
              (seq 0 (len + 2)) in
        let newFeatures :=
          map (fun f =>
                 mkProgressableFeature (positiveModulo (progress f - cuttingPoint) (ofZ 1))
                                       (feature f))
              (measuredFeatures this) in
        MeasuredPolygon_new (measurer this) newFeatures retCubics retOutlineProgress
    end.

(** The cubics of the features in order and, for a corner, the index of
    the cubic at position [length / 2].  The division is the one of
    numbers: a position is equal to it only when the length is even. *)
Definition flattenFeatures (features : list Feature)
  : list Cubic * list (Feature * nat) :=
  fold_left
    (fun '(cubics, featureToCubic) feature =>
       fold_left
         (fun '(cubics, featureToCubic) '(cubicIndex, c) =>
            (cubics ++ [c],
             if instanceof_Corner feature &&
                Nat.eqb (2 * cubicIndex) (length (Feature_cubics feature))
             then featureToCubic ++ [(feature, length cubics)]
             else featureToCubic))
         (combine (seq 0 (length (Feature_cubics feature))) (Feature_cubics feature))
         (cubics, featureToCubic))
    features ([], []).

(** The running sums of the measures, starting from [[0]]. *)
Fixpoint measures_scan (measurer : Measurer) (cubics : list Cubic) (measures : list num)
  : result (list num) :=
  match cubics with
  | [] => Ok measures
  | c :: rest =>
      let measurement := measureCubic measurer c in
      if measurement <? ofZ 0
      then Throw "Measured cubic is expected to be greater or equal to zero"
      else measures_scan measurer rest (measures ++ [last measures NaN + measurement])
  end.

Definition measurePolygon (measurer : Measurer) (polygon : RoundedPolygon)
  : result MeasuredPolygon :=
  let '(cubics, featureToCubic) := flattenFeatures (features polygon) in
  do measures <- measures_scan measurer cubics [ofZ 0];
  let totalMeasure := last measures NaN in
  let outlineProgress := map (fun m => m / totalMeasure) measures in
  let features :=
    map (fun '(f, ix) =>
           mkProgressableFeature
             (positiveModulo
                ((nth ix outlineProgress NaN + nth (ix + 1) outlineProgress NaN) / ofZ 2)
                (ofZ 1))
             f)
        featureToCubic in
  MeasuredPolygon_new measurer features cubics outlineProgress.

(** [LengthMeasurer]: the private field [segments] is 3. *)
Definition segments : nat := 3.

(** The loop of [closestProgressTo] over the values of [i] that are left:
    [Some] is the [return] inside the loop. *)
Fixpoint closestProgressTo_loop (cubic : Cubic) (threshold : num) (indices : list nat)
    (total remainder : num) (prev : Point) : Point :=
  match indices with
  | [] => mkPoint (ofZ 1) total
  | i :: indices' =>
      let progress := ofZ (Z.of_nat i) / ofZ (Z.of_nat segments) in
      let point := pointOnCurve cubic progress in
      let segment := Point_getDistance (Point_minus point prev) in
      if segment >=? remainder then
        mkPoint (progress - (ofZ 1 - remainder / segment) / ofZ (Z.of_nat segments))
                threshold
      else
        closestProgressTo_loop cubic threshold indices' (total + segment) (remainder - segment)
                               point
  end.

(** [for (let i = 1; i < this.segments; i++)]. *)
Definition closestProgressTo (cubic : Cubic) (threshold : num) : Point :=
  closestProgressTo_loop cubic threshold (seq 1 (segments - 1))
    (ofZ 0) threshold (mkPoint (anchor0X cubic) (anchor0Y cubic)).

Context {Inf : Infinite num}.

Definition LengthMeasurer : Measurer :=
  mkMeasurer
    (fun c => y (closestProgressTo c POSITIVE_INFINITY))
    (fun c m => x (closestProgressTo c m)).

(** *** feature-mapping.ts *)

(** The sets [usedF1] and [usedF2] hold [ProgressableFeature] objects,
    told apart by identity and not by content: an object is the pair of
    its identity, a number, and its content, and a set of objects is the
    list of their identities.  The same object may occur more than once in
    an array. *)
Record DistanceVertex : Type := mkDistanceVertex {
  vertexDistance : num;                        (* the field [distance] *)
  f1 : nat * ProgressableFeature;
  f2 : nat * ProgressableFeature
}.

Definition featureRepresentativePoint (feature : Feature) : result Point :=
  match Feature_cubics feature with
  | [] => Throw "TypeError: feature.cubics.at(0) is undefined"
  | c :: cs =>
      let lastOne := last cs c in
      Ok (mkPoint ((anchor0X c + anchor1X lastOne) / ofZ 2)
                  ((anchor0Y c + anchor1Y lastOne) / ofZ 2))
  end.

Definition featureDistSquared (f1 f2 : Feature) : result num :=
  match f1, f2 with
  | Corner _ convex1, Corner _ convex2 =>
      if negb (Bool.eqb convex1 convex2) then Ok MAX_VALUE
      else
        do r1 <- featureRepresentativePoint f1;
        do r2 <- featureRepresentativePoint f2;
        Ok (Point_getDistanceSquared (Point_minus r1 r2))
  | _, _ =>
      do r1 <- featureRepresentativePoint f1;
      do r2 <- featureRepresentativePoint f2;
      Ok (Point_getDistanceSquared (Point_minus r1 r2))
  end.

Definition progressDistance (p1 p2 : num) : num :=
  let it := nabs (p1 - p2) in
  nmin it (ofZ 1 - it).

(** [Array.prototype.sort] with the comparator [a.distance - b.distance]:
    a stable sort, here by insertion of the elements from left to right,
    each one after the elements that do not compare greater. *)
Fixpoint sort_insert (v : DistanceVertex) (sorted : list DistanceVertex)
  : list DistanceVertex :=
  match sorted with
  | [] => [v]
  | w :: sorted' =>
      if vertexDistance w - vertexDistance v >? ofZ 0 then v :: w :: sorted'
      else w :: sort_insert v sorted'
  end.

Definition sort_by_distance (l : list DistanceVertex) : list DistanceVertex :=
  fold_left (fun sorted v => sort_insert v sorted) l [].

(** An array read at an integer index: [undefined] below 0 and past the
    end.  The remainders that give such an index are JavaScript's, with
    the sign of the dividend: [Z.rem]. *)
Definition array_get {T : Type} (l : list T) (i : Z) : option T :=
  if (i <? 0)%Z then None else nth_error l (Z.to_nat i).

(** [splice(start, 0, item)]: a negative [start] counts from the end. *)
Definition splice_insert {T : Type} (l : list T) (start : Z) (item : T) : list T :=
  let len := Z.of_nat (length l) in
  let k := if (start <? 0)%Z then Z.max (len + start) 0 else Z.min start len in
  firstn (Z.to_nat k) l ++ item :: skipn (Z.to_nat k) l.

Record MappingHelper : Type := mkMappingHelper {
  mapping : list (num * num);
  usedF1 : list nat;
  usedF2 : list nat
}.

Definition MappingHelper_new : MappingHelper := mkMappingHelper [] [] [].

Definition addMapping (this : MappingHelper) (f1 f2 : nat * ProgressableFeature)
  : result MappingHelper :=
  if existsb (Nat.eqb (fst f1)) (usedF1 this) || existsb (Nat.eqb (fst f2)) (usedF2 this)
  then Ok this
  else
    let index :=
      match findIndex (fun m => fst m ===? progress (snd f1)) (mapping this) with
      | Some k => Z.of_nat k
      | None => (-1)%Z
      end in
    let insertionIndex := (- index - 1)%Z in
    let n := Z.of_nat (length (mapping this)) in
    let added :=
      Ok (mkMappingHelper
            (splice_insert (mapping this) insertionIndex
                           (progress (snd f1), progress (snd f2)))
            (fst f1 :: usedF1 this)
            (fst f2 :: usedF2 this)) in
    if (n >=? 1)%Z then
      match array_get (mapping this) (Z.rem (insertionIndex + n - 1) n),
            array_get (mapping this) (Z.rem insertionIndex n) with
      | Some (before1, before2), Some (after1, after2) =>
          if (progressDistance (progress (snd f1)) before1 <? DistanceEpsilon) ||
             (progressDistance (progress (snd f1)) after1 <? DistanceEpsilon) ||
             (progressDistance (progress (snd f2)) before2 <? DistanceEpsilon) ||
             (progressDistance (progress (snd f2)) after2 <? DistanceEpsilon)
          then Ok this
          else if (n >? 1)%Z &&
                  negb (progressInRange (progress (snd f2)) before2 after2)
          then Ok this
          else added
      | _, _ => Throw "TypeError: cannot destructure undefined"
      end
    else added.

Fixpoint addMappings (this : MappingHelper) (l : list DistanceVertex)
  : result MappingHelper :=
  match l with
  | [] => Ok this
  | v :: l' => do this' <- addMapping this (f1 v) (f2 v); addMappings this' l'
  end.

(** The two nested loops that build [distanceVertexList]. *)
Fixpoint distanceVertices_inner (f1 : nat * ProgressableFeature)
    (features2 : list (nat * ProgressableFeature)) (acc : list DistanceVertex)
  : result (list DistanceVertex) :=
  match features2 with
  | [] => Ok acc
  | f2 :: rest =>
      do d <- featureDistSquared (feature (snd f1)) (feature (snd f2));
      distanceVertices_inner f1 rest
        (if negb (d ===? MAX_VALUE) then acc ++ [mkDistanceVertex d f1 f2] else acc)
  end.

Fixpoint distanceVertices (features1 features2 : list (nat * ProgressableFeature))
    (acc : list DistanceVertex) : result (list DistanceVertex) :=
  match features1 with
  | [] => Ok acc
  | f1 :: rest =>
      do acc' <- distanceVertices_inner f1 features2 acc;
      distanceVertices rest features2 acc'
  end.

Definition enumerate {T : Type} (l : list T) : list (nat * T) :=
  combine (seq 0 (length l)) l.

Definition doMappingOn (features1 features2 : list (nat * ProgressableFeature))
  : result (list (num * num)) :=
  do unsorted <- distanceVertices features1 features2 [];
  let distanceVertexList := sort_by_distance unsorted in
  match distanceVertexList with
  | [] => Ok IdentityMapping
  | [v] =>
      let p1 := progress (snd (f1 v)) in
      let p2 := progress (snd (f2 v)) in
      Ok [(p1, p2);
          (nrem (p1 + ofZ 5 / ofZ 10) (ofZ 1), nrem (p2 + ofZ 5 / ofZ 10) (ofZ 1))]
  | _ =>
      do helper <- addMappings MappingHelper_new distanceVertexList;
      Ok (mapping helper)
  end.

(** [doMapping] on two arrays whose elements are all distinct objects:
    each one is given its position in its array as identity. *)
Definition doMapping (features1 features2 : list ProgressableFeature)
  : result (list (num * num)) :=
  doMappingOn (enumerate features1) (enumerate features2).

Definition featureMapper (features1 features2 : list ProgressableFeature)
  : result DoubleMapper :=
  let filteredFeatures1 := filter (fun f => instanceof_Corner (feature f)) features1 in
  let filteredFeatures2 := filter (fun f => instanceof_Corner (feature f)) features2 in
  do featureProgressMapping <- doMapping filteredFeatures1 filteredFeatures2;
  Ok (DoubleMapper_new featureProgressMapping).

(** *** morph.ts *)

(** A pair [{ a, b }] of [morphMatch] is the pair [(a, b)]. *)
Definition interpolateCubic (a b : Cubic) (progress : num) : Cubic :=
  mkCubic
    (interpolate (anchor0X a) (anchor0X b) progress)
    (interpolate (anchor0Y a) (anchor0Y b) progress)
    (interpolate (control0X a) (control0X b) progress)
    (interpolate (control0Y a) (control0Y b) progress)
    (interpolate (control1X a) (control1X b) progress)
    (interpolate (control1Y a) (control1Y b) progress)
    (interpolate (anchor1X a) (anchor1X b) progress)
    (interpolate (anchor1Y a) (anchor1Y b) progress).

(** The body of the loop of [asCubics] on [(ret, firstCubic, lastCubic)]. *)
Definition asCubics_step (progress : num) (st : BuildState) (m : Cubic * Cubic)
  : BuildState :=
  let cubic := interpolateCubic (fst m) (snd m) progress in
  mkBuildState
    (match lastCubic st with
     | Some l => result_ st ++ [l]
     | None => result_ st
     end)
    (match firstCubic st with
     | None => Some cubic
     | Some f => Some f
     end)
    (Some cubic).

Definition asCubics (morphMatch : list (Cubic * Cubic)) (progress : num) : list Cubic :=
  let st := fold_left (asCubics_step progress) morphMatch (mkBuildState [] None None) in
  match lastCubic st, firstCubic st with
  | Some l, Some f =>
      result_ st ++
      [mkCubic (anchor0X l) (anchor0Y l) (control0X l) (control0Y l)
               (control1X l) (control1Y l) (anchor0X f) (anchor0Y f)]
  | _, _ => result_ st
  end.

(** [forEachCubic(progress, mutableCubic, callback)]: the state is the
    scratch cubic and the values the callback has been given so far, each
    one the content of the scratch cubic at the time of its call. *)
Definition forEachCubic (morphMatch : list (Cubic * Cubic)) (progress : num)
    (mutableCubic : Cubic) : Cubic * list Cubic :=
  fold_left
    (fun '(mutableCubic, delivered) m =>
       let mutableCubic := MutableCubic_interpolate mutableCubic (fst m) (snd m) progress in
       (mutableCubic, delivered ++ [mutableCubic]))
    morphMatch (mutableCubic, []).

(** The variables of the loop of [match]: the two cursors, the two
    current measured cubics ([None] is [undefined]) and [ret]. *)
Record MatchState : Type := mkMatchState {
  i1 : nat;
  i2 : nat;
  b1 : option MeasuredCubic;
  b2 : option MeasuredCubic;
  ret : list (Cubic * Cubic)
}.

(** One turn of the loop, entered with both current cubics defined. *)
Definition match_step (bs1 bs2 : MeasuredPolygon) (doubleMapper : DoubleMapper)
    (polygon2CutPoint : num) (st : MatchState) (b1 b2 : MeasuredCubic)
  : result MatchState :=
  let b1a :=
    if Nat.eqb (i1 st) (length (measuredCubics bs1)) then ofZ 1
    else endOutlineProgress b1 in
  do b2a <-
    (if Nat.eqb (i2 st) (length (measuredCubics bs2)) then Ok (ofZ 1)
     else DoubleMapper_mapBack doubleMapper
            (positiveModulo (endOutlineProgress b2 + polygon2CutPoint) (ofZ 1)));
  let minb := nmin b1a b2a in
  do r1 <-
    (if b1a >? minb + AngleEpsilon then
       do (a, b) <- cutAtProgress (measurer bs1) b1 minb;
       Ok (a, Some b, i1 st)
     else Ok (b1, nth_error (measuredCubics bs1) (i1 st), S (i1 st)));
  do r2 <-
    (if b2a >? minb + AngleEpsilon then
       do m <- DoubleMapper_map doubleMapper minb;
       do (a, b) <- cutAtProgress (measurer bs2) b2
                      (positiveModulo (m - polygon2CutPoint) (ofZ 1));
       Ok (a, Some b, i2 st)
     else Ok (b2, nth_error (measuredCubics bs2) (i2 st), S (i2 st)));
  let '(seg1, newb1, i1') := r1 in
  let '(seg2, newb2, i2') := r2 in
  Ok (mkMatchState i1' i2' newb1 newb2 (ret st ++ [(cubic seg1, cubic seg2)])).

(** The [while] loop, for at most [fuel] turns; [None] when they are used
    up before the loop ends. *)
Fixpoint match_loop (fuel : nat) (bs1 bs2 : MeasuredPolygon) (doubleMapper : DoubleMapper)
    (polygon2CutPoint : num) (st : MatchState) : option (result (list (Cubic * Cubic))) :=
  match b1 st, b2 st with
  | Some cur1, Some cur2 =>
      match fuel with
      | O => None
      | S fuel' =>
          match match_step bs1 bs2 doubleMapper polygon2CutPoint st cur1 cur2 with
          | Ok st' => match_loop fuel' bs1 bs2 doubleMapper polygon2CutPoint st'
          | Throw m => Some (Throw m)
          end
      end
  | _, _ => Some (Ok (ret st))
  end.

(** [match(p1, p2)], the value of [morphMatch] of [new Morph(p1, p2)]. *)
Definition Morph_match (fuel : nat) (p1 p2 : RoundedPolygon)
  : option (result (list (Cubic * Cubic))) :=
  match
    (do measuredPolygon1 <- measurePolygon LengthMeasurer p1;
     do measuredPolygon2 <- measurePolygon LengthMeasurer p2;
     do doubleMapper <- featureMapper (measuredFeatures measuredPolygon1)
                                      (measuredFeatures measuredPolygon2);
     do polygon2CutPoint <- DoubleMapper_map doubleMapper (ofZ 0);
     do bs2 <- cutAndShift measuredPolygon2 polygon2CutPoint;
     Ok (measuredPolygon1, bs2, doubleMapper, polygon2CutPoint))
  with
  | Throw m => Some (Throw m)
  | Ok (bs1, bs2, doubleMapper, polygon2CutPoint) =>
      match_loop fuel bs1 bs2 doubleMapper polygon2CutPoint
        (mkMatchState 1 1 (nth_error (measuredCubics bs1) 0)
                      (nth_error (measuredCubics bs2) 0) [])
  end.

(** *** Further methods of cubic.ts, feature.ts and rounded-polygon.ts *)

Definition convexTo (this next : Cubic) : bool :=
  let prevVertex := mkPoint (anchor0X this) (anchor0Y this) in
  let currVertex := mkPoint (anchor1X this) (anchor1Y this) in
  let nextVertex := mkPoint (anchor1X next) (anchor1Y next) in
  convex prevVertex currVertex nextVertex.

Definition zeroIsh (value : num) : bool := nabs value <? DistanceEpsilon.

(** [plus], [times], [div] and [equals] map over the eight numbers. *)
Definition Cubic_plus (this other : Cubic) : Cubic :=
  mkCubic (anchor0X this + anchor0X other) (anchor0Y this + anchor0Y other)
          (control0X this + control0X other) (control0Y this + control0Y other)
          (control1X this + control1X other) (control1Y this + control1Y other)
          (anchor1X this + anchor1X other) (anchor1Y this + anchor1Y other).

Definition Cubic_times (this : Cubic) (k : num) : Cubic :=
  mkCubic (anchor0X this * k) (anchor0Y this * k)
          (control0X this * k) (control0Y this * k)
          (control1X this * k) (control1Y this * k)
          (anchor1X this * k) (anchor1Y this * k).

Definition Cubic_div (this : Cubic) (k : num) : Cubic := Cubic_times this (ofZ 1 / k).

Definition Cubic_equals (this other : Cubic) : bool :=
  (anchor0X other ===? anchor0X this) && (anchor0Y other ===? anchor0Y this) &&
  (control0X other ===? control0X this) && (control0Y other ===? control0Y this) &&
  (control1X other ===? control1X this) && (control1Y other ===? control1Y this) &&
  (anchor1X other ===? anchor1X this) && (anchor1Y other ===? anchor1Y this).

(** [transformed(f)]: a copy whose four points are run through [f], by
    [MutableCubic.transform]. *)
Definition Cubic_transformed (this : Cubic) (f : num -> num -> Point) : Cubic :=
  Cubic_create (f (anchor0X this) (anchor0Y this))
               (f (control0X this) (control0Y this))
               (f (control1X this) (control1Y this))
               (f (anchor1X this) (anchor1Y this)).

(** The elements 0 to 3 of the array [bounds] after [calculateBounds]: the
    method writes these four and nothing else. *)
Record Bounds : Type := mkBounds {
  boundsLeft : num; boundsTop : num; boundsRight : num; boundsBottom : num
}.

(** [if (it < min) min = it; if (it > max) max = it]. *)
Definition widen (it : num) (range : num * num) : num * num :=
  (if it <? fst range then it else fst range,
   if it >? snd range then it else snd range).

Definition Cubic_calculateBounds (this : Cubic) (approximate : bool) : Bounds :=
  if zeroLength this then
    mkBounds (anchor0X this) (anchor0Y this) (anchor0X this) (anchor0Y this)
  else
    let minX := nmin (anchor0X this) (anchor1X this) in
    let minY := nmin (anchor0Y this) (anchor1Y this) in
    let maxX := nmax (anchor0X this) (anchor1X this) in
    let maxY := nmax (anchor0Y this) (anchor1Y this) in
    if approximate then
      mkBounds (nmin minX (nmin (control0X this) (control1X this)))
               (nmin minY (nmin (control0Y this) (control1Y this)))
               (nmax maxX (nmax (control0X this) (control1X this)))
               (nmax maxY (nmax (control0Y this) (control1Y this)))
    else
      let xa := - anchor0X this + ofZ 3 * control0X this - ofZ 3 * control1X this
                + anchor1X this in
      let xb := ofZ 2 * anchor0X this - ofZ 4 * control0X this + ofZ 2 * control1X this in
      let xc := - anchor0X this + control0X this in
      let rangeX :=
        if zeroIsh xa then
          if negb (xb ===? ofZ 0) then
            let t := ofZ 2 * xc / (ofZ (-2) * xb) in
            if (t >=? ofZ 0) && (t <=? ofZ 1)
            then widen (x (pointOnCurve this t)) (minX, maxX)
            else (minX, maxX)
          else (minX, maxX)
        else
          let xs := xb * xb - ofZ 4 * xa * xc in
          if xs >=? ofZ 0 then
            let t1 := (- xb + nsqrt xs) / (ofZ 2 * xa) in
            let range1 :=
              if (t1 >=? ofZ 0) && (t1 <=? ofZ 1)
              then widen (x (pointOnCurve this t1)) (minX, maxX)
              else (minX, maxX) in
            let t2 := (- xb - nsqrt xs) / (ofZ 2 * xa) in
            if (t2 >=? ofZ 0) && (t2 <=? ofZ 1)
            then widen (x (pointOnCurve this t2)) range1
            else range1
          else (minX, maxX) in
      let ya := - anchor0Y this + ofZ 3 * control0Y this - ofZ 3 * control1Y this
                + anchor1Y this in
      let yb := ofZ 2 * anchor0Y this - ofZ 4 * control0Y this + ofZ 2 * control1Y this in
      let yc := - anchor0Y this + control0Y this in
      let rangeY :=
        if zeroIsh ya then
          if negb (yb ===? ofZ 0) then
            let t := ofZ 2 * yc / (ofZ (-2) * yb) in
            if (t >=? ofZ 0) && (t <=? ofZ 1)
            then widen (y (pointOnCurve this t)) (minY, maxY)
            else (minY, maxY)
          else (minY, maxY)
        else
          let ys := yb * yb - ofZ 4 * ya * yc in
          if ys >=? ofZ 0 then
            let t1 := (- yb + nsqrt ys) / (ofZ 2 * ya) in
            let range1 :=
              if (t1 >=? ofZ 0) && (t1 <=? ofZ 1)
              then widen (y (pointOnCurve this t1)) (minY, maxY)
              else (minY, maxY) in
            let t2 := (- yb - nsqrt ys) / (ofZ 2 * ya) in
            (* the source tests [2 >= 0] here, not [t2 >= 0] *)
            if (ofZ 2 >=? ofZ 0) && (t2 <=? ofZ 1)
            then widen (y (pointOnCurve this t2)) range1
            else range1
          else (minY, maxY) in
      mkBounds (fst rangeX) (fst rangeY) (snd rangeX) (snd rangeY).

Definition Feature_transformed (this : Feature) (f : num -> num -> Point) : Feature :=
  match this with
  | Edge cubics => Edge (map (fun c => Cubic_transformed c f) cubics)
  | Corner cubics isConvex => Corner (map (fun c => Cubic_transformed c f) cubics) isConvex
  end.

Definition Feature_reversed (this : Feature) : Feature :=
  match this with
  | Edge cubics => Edge (map reverse cubics)
  | Corner cubics isConvex => Corner (map reverse cubics) (negb isConvex)
  end.

(** Modelled from the spec: [Point.transformed(f)] (point.ts is not among
    the sources) applies the transformer [f] to the two coordinates. *)
Definition Point_transformed (p : Point) (f : num -> num -> Point) : Point := f (x p) (y p).

Definition RoundedPolygon_transformed (this : RoundedPolygon) (f : num -> num -> Point)
  : RoundedPolygon :=
  let center := Point_transformed (polygonCenter this) f in
  RoundedPolygon_new (map (fun feature => Feature_transformed feature f) (features this))
                     center.

(** [calculateBounds(bounds, approximate)] of a polygon; the array it is
    given is only written to. *)
Definition RoundedPolygon_calculateBounds (this : RoundedPolygon) (approximate : bool)
  : Bounds :=
  fold_left
    (fun acc cubic =>
       let b := Cubic_calculateBounds cubic approximate in
       mkBounds (nmin (boundsLeft acc) (boundsLeft b))
                (nmin (boundsTop acc) (boundsTop b))
                (nmax (boundsRight acc) (boundsRight b))
                (nmax (boundsBottom acc) (boundsBottom b)))
    (cubics this)
    (mkBounds MAX_SAFE_INTEGER MAX_SAFE_INTEGER MIN_SAFE_INTEGER MIN_SAFE_INTEGER).

Definition calculateMaxBounds (this : RoundedPolygon) : Bounds :=
  let centerX := x (polygonCenter this) in
  let centerY := y (polygonCenter this) in
  let maxDistSquared :=
    fold_left
      (fun maxDistSquared cubic =>
         let anchorDistance :=
           distanceSquared (anchor0X cubic - centerX) (anchor0Y cubic - centerY) in
         let middlePoint := pointOnCurve cubic (ofZ 5 / ofZ 10) in
         let middleDistance :=
           distanceSquared (x middlePoint - centerX) (y middlePoint - centerY) in
         nmax maxDistSquared (nmax anchorDistance middleDistance))
      (cubics this) (ofZ 0) in
  let distance := nsqrt maxDistSquared in
  mkBounds (centerX - distance) (centerY - distance)
           (centerX + distance) (centerY + distance).

(** [normalized()]: the bounds are the approximate ones, the default. *)
Definition normalized (this : RoundedPolygon) : RoundedPolygon :=
  let bounds := RoundedPolygon_calculateBounds this true in
  let width := boundsRight bounds - boundsLeft bounds in
  let height := boundsBottom bounds - boundsTop bounds in
  let side := nmax width height in
  let offsetX := (side - width) / ofZ 2 - boundsLeft bounds in
  let offsetY := (side - height) / ofZ 2 - boundsTop bounds in
  RoundedPolygon_transformed this
    (fun x y => mkPoint ((x + offsetX) / side) ((y + offsetY) / side)).

Definition verticesFromNumVerts (numVertices : nat) (radius centerX centerY : num)
  : list num :=
  flat_map (fun i =>
              let vertex :=
                Point_plus
                  (radialToCartesian radius
                     (Math_PI / ofZ (Z.of_nat numVertices) * ofZ 2 * ofZ (Z.of_nat i))
                     (mkPoint (ofZ 0) (ofZ 0)))
                  (mkPoint centerX centerY) in
              [x vertex; y vertex])
           (seq 0 numVertices).

Definition fromNumVertices (numVertices : nat) (radius centerX centerY : num)
    (rounding : CornerRounding) (perVertexRounding : option (list CornerRounding))
  : RoundedPolygon :=
  fromVertices (verticesFromNumVerts numVertices radius centerX centerY)
               rounding perVertexRounding centerX centerY.

(** [circle]: the argument [radius = polygonRadius] is an assignment, made
    before [new CornerRounding(radius)] is evaluated. *)
Definition circle (numVertices : nat) (radius centerX centerY : num) : RoundedPolygon :=
  let theta := Math_PI / ofZ (Z.of_nat numVertices) in
  let polygonRadius := radius / Math_cos theta in
  let radius := polygonRadius in
  fromNumVertices numVertices radius centerX centerY
                  (mkCornerRounding radius (ofZ 0)) None.

End Shape.

Arguments Point : clear implicits.
Arguments Cubic : clear implicits.
Arguments CornerRounding : clear implicits.
Arguments RoundedCorner : clear implicits.
Arguments Feature : clear implicits.
Arguments RoundedPolygon : clear implicits.
Arguments BuildState : clear implicits.
Arguments DoubleMapper : clear implicits.
Arguments Measurer : clear implicits.
Arguments ProgressableFeature : clear implicits.
Arguments MeasuredCubic : clear implicits.
Arguments MeasuredPolygon : clear implicits.
Arguments js_value : clear implicits.
Arguments coerceIn_args : clear implicits.
Arguments Bounds : clear implicits.
Arguments DistanceVertex : clear implicits.
Arguments MappingHelper : clear implicits.
Arguments MatchState : clear implicits.

(** ** Notions of the specification *)

Section SpecNotions.
Context {num : Type} {A : Arith num}.
Local Open Scope num_scope.

(** The closing cubic both [buildCubicList] and [asCubics] emit: the
    anchor and controls of [l], ending on the first anchor of [f]. *)
Definition closingCubic (l f : Cubic num) : Cubic num :=
  mkCubic (anchor0X l) (anchor0Y l) (control0X l) (control0Y l)
          (control1X l) (control1Y l) (anchor0X f) (anchor0Y f).

(** The interpolated cubics of a match list, one for each pair. *)
Definition interpolated (morphMatch : list (Cubic num * Cubic num)) (progress : num)
  : list (Cubic num) :=
  map (fun m => interpolateCubic (fst m) (snd m) progress) morphMatch.

(** [p] lies in the half-open unit interval. *)
Definition inUnit (p : num) : bool := (p >=? ofZ 0) && (p <? ofZ 1).

(** [p], [q], [r] are met in this order going up around the circle. *)
Definition cyclicOrder (p q r : num) : bool :=
  ((p <? q) && (q <? r)) || ((q <? r) && (r <? p)) || ((r <? p) && (p <? q)).

(** Anchor pairs are cyclically order-preserving when every three of them
    that are in cyclic order on the [a] side are so on the [b] side. *)
Definition cyclicallyOrderPreserving (anchors : list (num * num)) : bool :=
  forallb
    (fun p =>
       forallb
         (fun q =>
            forallb
              (fun r =>
                 implb (cyclicOrder (fst p) (fst q) (fst r))
                       (cyclicOrder (snd p) (snd q) (snd r)))
              anchors)
         anchors)
    anchors.

Definition anchors (mapper : DoubleMapper num) : list (num * num) :=
  combine (sourceValues mapper) (targetValues mapper).

(** The length the specification gives a cubic: the sum of the three
    chords between the points at [t = 0, 1/3, 2/3, 1]. *)
Definition threeChordLength (c : Cubic num) : num :=
  let at_ (k : Z) := pointOnCurve c (ofZ k / ofZ 3) in
  Point_getDistance (Point_minus (at_ 1%Z) (mkPoint (anchor0X c) (anchor0Y c))) +
  Point_getDistance (Point_minus (at_ 2%Z) (at_ 1%Z)) +
  Point_getDistance (Point_minus (at_ 3%Z) (at_ 2%Z)).

(** The widths of the segments of one side of a mapper, as [linearMap]
    computes them: from each value to the next one in the list, the last
    one to the first. *)
Definition segmentWidths (values : list num) : list num :=
  map (fun i =>
         positiveModulo (nsub (nth ((i + 1) mod length values) values NaN) (nth i values NaN))
                        (ofZ 1))
      (seq 0 (length values)).

(** What the loops of [buildCubicList] keep true: either no cubic was kept
    yet, or the first cubic of the list under construction (of [result]
    followed by [lastCubic]) starts where [firstCubic] starts. *)
Definition build_inv (st : BuildState num) : Prop :=
  match firstCubic st, lastCubic st with
  | None, None => result_ st = []
  | Some f, Some l =>
      anchor0X (hd l (result_ st)) = anchor0X f /\
      anchor0Y (hd l (result_ st)) = anchor0Y f
  | _, _ => False
  end.

(** The test that opens [getCubics]. *)
Definition nothingToRound (this : RoundedCorner num) (allowedCut0 allowedCut1 : num) : bool :=
  (expectedRoundCut this <? DistanceEpsilon) ||
  (nmin allowedCut0 allowedCut1 <? DistanceEpsilon) ||
  (cornerRadius this <? DistanceEpsilon).

(** [l] is a chain of progress ranges from [s] to [e]: the first range
    starts at [s], each range starts where the one before it ends, and the
    last one ends at [e]. *)
Fixpoint chain (s : num) (l : list (MeasuredCubic num)) (e : num) : Prop :=
  match l with
  | [] => s = e
  | c :: l' => startOutlineProgress c = s /\ chain (endOutlineProgress c) l' e
  end.

(** A corner with an even number of cubics. *)
Definition evenCorner (f : Feature num) : Prop :=
  instanceof_Corner f = true /\ Nat.even (length (Feature_cubics f)) = true.

(** The features of a polygon of [n] vertices: a corner of one or three
    cubics and an edge of one cubic for each vertex, the edge running from
    the end of its corner to the start of the next corner. *)
Definition cornersAndEdges (n : nat) (fs : list (Feature num)) : Prop :=
  length fs = (2 * n)%nat /\
  forall i, (i < n)%nat ->
    exists cs isConvex e cs' isConvex',
      nth_error fs (2 * i) = Some (Corner cs isConvex) /\
      (length cs = 1%nat \/ length cs = 3%nat) /\
      nth_error fs (2 * i + 1) = Some (Edge [e]) /\
      nth_error fs (2 * ((i + 1) mod n)) = Some (Corner cs' isConvex') /\
      anchor0X e = anchor1X (at_last cs) /\ anchor0Y e = anchor1Y (at_last cs) /\
      anchor1X e = anchor0X (at_first cs') /\ anchor1Y e = anchor0Y (at_first cs').

(** The cubics [buildCubicList] goes through, in its order: when the first
    feature has three cubics, its middle cubic is split in two, the
    traversal starts at the second half and ends with the first half. *)
Definition traversed (features : list (Feature num)) : list (Cubic num) :=
  match features with
  | f0 :: rest =>
      match Feature_cubics f0 with
      | [c0; centerCubic; c2] =>
          [snd (split centerCubic (ofZ 5 / ofZ 10)); c2] ++
          flat_map (@Feature_cubics num) rest ++
          [c0; fst (split centerCubic (ofZ 5 / ofZ 10))]
      | _ => flat_map (@Feature_cubics num) features
      end
  | [] => []
  end.

(** The state of [buildCubicList] after [k] cubics that are not of zero
    length: [k - 1] of them are in [result] and one is held back. *)
Definition keptSoFar (st : BuildState num) (k : nat) : Prop :=
  match lastCubic st, firstCubic st with
  | Some _, Some _ => (length (result_ st) + 1 = k)%nat
  | None, None => result_ st = [] /\ k = 0%nat
  | _, _ => False
  end.

(** [MappingHelper]: the three collections grow together, no object is
    used twice, and the objects used are among those of the two arrays,
    whose identities are [ids1] and [ids2]. *)
Definition helperAmong (ids1 ids2 : list nat) (h : MappingHelper num) : Prop :=
  length (mapping h) = length (usedF1 h) /\
  length (mapping h) = length (usedF2 h) /\
  NoDup (usedF1 h) /\ NoDup (usedF2 h) /\
  incl (usedF1 h) ids1 /\
  incl (usedF2 h) ids2.

Definition vertexAmong (ids1 ids2 : list nat) (v : DistanceVertex num) : Prop :=
  In (fst (f1 v)) ids1 /\ In (fst (f2 v)) ids2.

(** Where the left and right bounds of [calculateBounds] come from: [v]
    is the abscissa of the first anchor, the smaller or the larger of the
    abscissas of the two anchors, or the abscissa of the point of the
    curve at a parameter that passes the test [t >= 0 && t <= 1]. *)
Definition abscissaOf (c : Cubic num) (v : num) : Prop :=
  v = anchor0X c \/
  v = nmin (anchor0X c) (anchor1X c) \/
  v = nmax (anchor0X c) (anchor1X c) \/
  exists t, (t >=? ofZ 0) && (t <=? ofZ 1) = true /\ v = x (pointOnCurve c t).

End SpecNotions.

(** ** Inputs in binary64 *)

Section Binary64Inputs.
Local Open Scope float_scope.
#[local] Set Warnings "-inexact-float".

(** A square of side 200 about the origin, its corners rounded by [r]. *)
Definition square (r : float) : RoundedPolygon float :=
  rectangle 200 200 (mkCornerRounding r 0) None 0 0.

(** [new Morph(square(0), square(50)).morphMatch]. *)
Definition squareMorph : list (Cubic float * Cubic float) :=
  Eval vm_compute in
    match Morph_match 64 (square 0) (square 50) with
    | Some (Ok m) => m
    | _ => []
    end.

(** [new Morph(square(0.01), square(0.01)).morphMatch]: the corner arcs
    are too short to be measured cubics of their own. *)
Definition tinyCornerMorph : list (Cubic float * Cubic float) :=
  Eval vm_compute in
    match Morph_match 64 (square 0.01) (square 0.01) with
    | Some (Ok m) => m
    | _ => []
    end.

(** The straight line from (0, 0) to (3, 0). *)
Definition line3 : Cubic float := straightLine 0 0 3 0.

(** A convex corner whose representative point is [(px, py)]. *)
Definition cornerAt64 (px py : float) : Feature float := Corner [Cubic_empty px py] true.

Definition features1 : list (ProgressableFeature float) :=
  [mkProgressableFeature 0.1 (cornerAt64 0 0);
   mkProgressableFeature 0.5 (cornerAt64 10 0);
   mkProgressableFeature 0.7 (cornerAt64 0 10)].

Definition features2 : list (ProgressableFeature float) :=
  [mkProgressableFeature 0.1 (cornerAt64 0 0);
   mkProgressableFeature 0.3 (cornerAt64 2 10);
   mkProgressableFeature 0.5 (cornerAt64 10 1)].

(** [Math.PI], and [Math.cos] and [Math.sin] at the four angles that a
    star of two outer and two inner vertices asks for. *)
Definition host_PI : float := 3.141592653589793.

Definition host_cos (a : float) : float :=
  if a =? 0 then 1
  else if a =? 1.5707963267948966 then 6.123233995736766e-17
  else if a =? 3.141592653589793 then -1
  else if a =? 4.71238898038469 then -1.8369701987210297e-16
  else nan.

Definition host_sin (a : float) : float :=
  if a =? 0 then 0
  else if a =? 1.5707963267948966 then 1
  else if a =? 3.141592653589793 then 1.2246467991473532e-16
  else if a =? 4.71238898038469 then -1
  else nan.

End Binary64Inputs.

(** ** Notions in exact arithmetic *)

Section ExactNotions.
Local Open Scope R_scope.

(** [positiveModulo(v, 1)], and the way from [a] up to [b] around the
    circle. *)
Definition pm1 (v : R) : R := positiveModulo v 1.

Definition dist (a b : R) : R := pm1 (b - a).

Fixpoint Rsum (l : list R) : R :=
  match l with
  | [] => 0
  | v :: l' => v + Rsum l'
  end.

(** The sum of the first [i] elements. *)
Definition prefix (g : list R) (i : nat) : R := Rsum (firstn i g).

(** The hypotheses on one side of a mapper: the values are in the unit
    interval, every segment is at least 0.001 wide, and the widths add up
    to one turn. *)
Definition onceAround (l : list R) : Prop :=
  Forall (fun v => 0 <= v < 1) l /\
  Forall (fun w => 1 / 1000 <= w) (segmentWidths l) /\
  Rsum (segmentWidths l) = 1.

(** The width of segment [i], and where anchor [i] lies from anchor 0 when
    the circle is unrolled. *)
Definition width (l : list R) (i : nat) : R := nth i (segmentWidths l) 0.
Definition unrolled (l : list R) (i : nat) : R := prefix (segmentWidths l) i.

(** The loop of [match]: a cursor is past at most one element of its list
    while its current cubic is defined; the turns that are left. *)
Definition cursorsInRange (bs1 bs2 : MeasuredPolygon R) (st : MatchState R) : Prop :=
  (b1 st <> None -> (i1 st <= length (measuredCubics bs1))%nat) /\
  (b2 st <> None -> (i2 st <= length (measuredCubics bs2))%nat).

Definition turnsLeft (bs1 bs2 : MeasuredPolygon R) (st : MatchState R) : nat :=
  (length (measuredCubics bs1) + 1 - i1 st) + (length (measuredCubics bs2) + 1 - i2 st).

End ExactNotions.

(** ** Laws of the control flow, in every arithmetic *)

Section ControlFlow.
Context {num : Type} {A : Arith num}.
Local Open Scope num_scope.

(** *** Morph.asCubics and Morph.forEachCubic *)

Lemma removelast_cons2 (T : Type) (a b : T) (l : list T) :
  removelast (a :: b :: l) = a :: removelast (b :: l).
Proof. reflexivity. Qed.

Lemma last_cons_default (T : Type) (l : list T) :
  forall a d : T, last (a :: l) d = last l a.
Proof.
  induction l as [|b l IH]; intros a d; [reflexivity|].
  change (last (a :: b :: l) d) with (last (b :: l) d).
  now rewrite !IH.
Qed.

Lemma asCubics_fold (progress : num) (morphMatch : list (Cubic num * Cubic num)) :
  forall (r : list (Cubic num)) (f l : Cubic num),
    fold_left (asCubics_step progress) morphMatch (mkBuildState r (Some f) (Some l)) =
    mkBuildState (r ++ removelast (l :: interpolated morphMatch progress)) (Some f)
                 (Some (last (interpolated morphMatch progress) l)).
Proof.
  induction morphMatch as [|m ms IH]; intros r f l.
  - simpl. now rewrite app_nil_r.
  - cbn [fold_left interpolated map].
    unfold asCubics_step at 2. cbn [lastCubic firstCubic result_].
    rewrite IH. fold (interpolated ms progress).
    rewrite removelast_cons2, <- app_assoc. cbn [app].
    now rewrite last_cons_default.
Qed.

(** [asCubics] in closed form: the interpolated cubics, the last of them
    replaced by the closing cubic. *)
Lemma asCubics_closed_form (morphMatch : list (Cubic num * Cubic num)) (progress : num) :
  asCubics morphMatch progress =
  match interpolated morphMatch progress with
  | [] => []
  | f :: cs => removelast (f :: cs) ++ [closingCubic (last cs f) f]
  end.
Proof.
  destruct morphMatch as [|m ms]; [reflexivity|].
  unfold asCubics. cbn [fold_left interpolated map].
  change (asCubics_step progress (mkBuildState [] None None) m)
    with (mkBuildState [] (Some (interpolateCubic (fst m) (snd m) progress))
                       (Some (interpolateCubic (fst m) (snd m) progress))).
  rewrite asCubics_fold. cbn [lastCubic firstCubic result_ app].
  reflexivity.
Qed.

Lemma length_removelast_cons (T : Type) (a : T) (l : list T) :
  length (removelast (a :: l)) = length l.
Proof.
  revert a; induction l as [|b l IH]; intros a; [reflexivity|].
  rewrite removelast_cons2. cbn [length]. now rewrite IH.
Qed.

Lemma forEachCubic_fold (progress : num) (morphMatch : list (Cubic num * Cubic num)) :
  forall (scratch : Cubic num) (delivered : list (Cubic num)),
    snd (fold_left
           (fun '(mutableCubic, delivered) m =>
              let mutableCubic :=
                MutableCubic_interpolate mutableCubic (fst m) (snd m) progress in
              (mutableCubic, delivered ++ [mutableCubic]))
           morphMatch (scratch, delivered)) =
    delivered ++ interpolated morphMatch progress.
Proof.
  induction morphMatch as [|m ms IH]; intros scratch delivered.
  - simpl. now rewrite app_nil_r.
  - cbn [fold_left]. rewrite IH, <- app_assoc. reflexivity.
Qed.

(** C1 (as amended): [asCubics(progress)] returns exactly as many cubics as
    [morphMatch] has pairs, for every progress: the closing cubic takes
    the place of the last interpolated cubic, it is not one more. *)
Theorem asCubics_length (morphMatch : list (Cubic num * Cubic num)) (progress : num) :
  length (asCubics morphMatch progress) = length morphMatch.
Proof.
  rewrite asCubics_closed_form.
  unfold interpolated.
  destruct morphMatch as [|m ms]; [reflexivity|].
  cbn [map]. rewrite length_app, length_removelast_cons, length_map.
  cbn [length]. lia.
Qed.

(** C7 (as amended): [forEachCubic] hands the callback the interpolated
    cubic of every pair, in order, whatever the scratch cubic held; the
    list of [asCubics] has the same cubics except for its last one, which
    is the closing cubic: the last interpolated cubic with its second
    anchor replaced by the first anchor of the first cubic. *)
Theorem forEachCubic_asCubics (morphMatch : list (Cubic num * Cubic num))
    (progress : num) (scratch : Cubic num) :
  snd (forEachCubic morphMatch progress scratch) = interpolated morphMatch progress /\
  asCubics morphMatch progress =
  match snd (forEachCubic morphMatch progress scratch) with
  | [] => []
  | f :: cs => removelast (f :: cs) ++ [closingCubic (last cs f) f]
  end.
Proof.
  assert (E : snd (forEachCubic morphMatch progress scratch) =
              interpolated morphMatch progress).
  { unfold forEachCubic. now rewrite forEachCubic_fold. }
  split; [exact E|].
  rewrite E. apply asCubics_closed_form.
Qed.

(** *** RoundedPolygon.buildCubicList *)

Lemma build_inv_step (st : BuildState num) (c : Cubic num) :
  build_inv st -> build_inv (buildCubicList_step st c).
Proof.
  unfold build_inv, buildCubicList_step.
  destruct st as [r [f|] [l|]]; cbn [firstCubic lastCubic result_];
    destruct (zeroLength c); cbn [negb firstCubic lastCubic result_];
    try tauto.
  - destruct r; cbn; tauto.
  - destruct r; cbn; tauto.
  - intros ->. cbn. tauto.
Qed.

Lemma build_inv_fold (cs : list (Cubic num)) :
  forall st, build_inv st -> build_inv (fold_left buildCubicList_step cs st).
Proof.
  induction cs as [|c cs IH]; intros st H; [exact H|].
  cbn [fold_left]. apply IH, build_inv_step, H.
Qed.

Lemma build_inv_outer (pick : nat -> option (list (Cubic num))) (indices : list nat) :
  forall st,
    build_inv st ->
    build_inv
      (fold_left
         (fun st i =>
            match pick i with
            | Some featureCubics => fold_left buildCubicList_step featureCubics st
            | None => st
            end)
         indices st).
Proof.
  induction indices as [|i indices IH]; intros st H; [exact H|].
  cbn [fold_left]. apply IH.
  destruct (pick i); [now apply build_inv_fold | exact H].
Qed.

Lemma last_app_singleton (T : Type) (l : list T) (c d : T) : last (l ++ [c]) d = c.
Proof. apply last_last. Qed.

(** C3: the list [buildCubicList] returns is never empty, and the second
    anchor of its last cubic is the very number pair that is the first
    anchor of its first cubic, for every feature list and center. *)
Theorem buildCubicList_closed (features : list (Feature num)) (center : Point num)
    (d : Cubic num) :
  buildCubicList features center <> [] /\
  anchor1X (last (buildCubicList features center) d) =
    anchor0X (hd d (buildCubicList features center)) /\
  anchor1Y (last (buildCubicList features center) d) =
    anchor0Y (hd d (buildCubicList features center)).
Proof.
  unfold buildCubicList.
  set (sp := match features with
             | [] => (None, None)
             | f0 :: _ => _
             end).
  destruct sp as [splitStart splitEnd].
  set (st := fold_left _ _ _).
  assert (H : build_inv st).
  { subst st.
    apply (build_inv_outer (featureCubicsAt features splitStart splitEnd)).
    reflexivity. }
  clearbody st. unfold build_inv in H.
  destruct st as [r [f|] [l|]]; cbn [firstCubic lastCubic result_] in *;
    try contradiction.
  - rewrite last_app_singleton. cbn [anchor1X anchor1Y].
    split; [now destruct r|].
    destruct r as [|c r]; cbn [app hd] in *; cbn; destruct H; split; congruence.
  - subst r. cbn. split; [discriminate | tauto].
Qed.

(** *** MeasuredPolygon.cutAndShift *)

(** C10: a cutting point below [DistanceEpsilon] makes [cutAndShift] return
    the receiver itself: the same measurer, features, measured cubics and
    progress values, nothing cut and nothing shifted. *)
Theorem cutAndShift_below_epsilon (this : MeasuredPolygon num) (cuttingPoint : num) :
  (cuttingPoint <? DistanceEpsilon) = true ->
  cutAndShift this cuttingPoint = Ok this.
Proof.
  intros H. unfold cutAndShift. now rewrite H.
Qed.

(** *** coerceIn *)

(** C9 (as amended): [coerceIn] throws exactly when it is called without
    [max] and with a [min] that is not a range object; with both bounds
    given it never throws: bounds in the wrong order are swapped and the
    value is clamped between them; the two fields of a range object are
    used as they are, in whatever order they come. *)
Theorem coerceIn_throws_iff (value : num) (args : coerceIn_args num) :
  ((exists message, coerceIn value args = Throw message) <->
   (exists v, args = MinOnly v /\ forall s e, v <> JsRange s e)) /\
  (forall min max,
      coerceIn value (MinMax min max) =
      Ok (if min <=? max then nmax min (nmin max value)
          else nmax max (nmin min value))) /\
  (forall s e, coerceIn value (MinOnly (JsRange s e)) = Ok (nmax s (nmin e value))).
Proof.
  split; [|split].
  - split.
    + intros [message H]. destruct args as [min max|[n|s e|]]; cbn in H.
      * destruct (min <=? max); discriminate.
      * exists (JsNumber n). split; [reflexivity | discriminate].
      * discriminate.
      * exists (@JsOther num). split; [reflexivity | discriminate].
    + intros [v [-> H]]. destruct v as [n|s e|]; cbn.
      * eexists; reflexivity.
      * now destruct (H s e).
      * eexists; reflexivity.
  - intros min max. cbn. now destruct (min <=? max).
  - reflexivity.
Qed.

(** *** RoundedCorner.getCubics *)

(** In every arithmetic: one cubic when the test holds, the straight line
    from [p1] to [p1], whose two anchors are [p1]; three cubics otherwise. *)
Lemma getCubics_shape (this : RoundedCorner num) (allowedCut0 allowedCut1 : num) :
  if nothingToRound this allowedCut0 allowedCut1
  then snd (getCubics this allowedCut0 allowedCut1) =
       [straightLine (x (p1 this)) (y (p1 this)) (x (p1 this)) (y (p1 this))]
  else length (snd (getCubics this allowedCut0 allowedCut1)) = 3%nat.
Proof.
  unfold getCubics, nothingToRound.
  destruct ((expectedRoundCut this <? DistanceEpsilon) ||
            (nmin allowedCut0 allowedCut1 <? DistanceEpsilon) ||
            (cornerRadius this <? DistanceEpsilon)); reflexivity.
Qed.

(** *** LengthMeasurer.measureCubic *)

(** For every cubic, the measure is made of two chords, from the first
    anchor to the point at 1/3 and from there to the point at 2/3 (or it is
    the infinite threshold itself, when a chord reaches it); the point at
    [t = 1] is not looked at. *)
Lemma measureCubic_two_chords {Inf : Infinite num} (c : Cubic num) :
  measureCubic LengthMeasurer c =
  let start := mkPoint (anchor0X c) (anchor0Y c) in
  let third := pointOnCurve c (ofZ 1 / ofZ 3) in
  let twoThirds := pointOnCurve c (ofZ 2 / ofZ 3) in
  let chord1 := Point_getDistance (Point_minus third start) in
  let chord2 := Point_getDistance (Point_minus twoThirds third) in
  if chord1 >=? POSITIVE_INFINITY then POSITIVE_INFINITY
  else if chord2 >=? POSITIVE_INFINITY - chord1 then POSITIVE_INFINITY
  else ofZ 0 + chord1 + chord2.
Proof.
  cbv zeta. unfold LengthMeasurer, closestProgressTo. cbn [measureCubic].
  cbn [segments Nat.sub seq closestProgressTo_loop Z.of_nat Pos.of_succ_nat Pos.succ].
  destruct (_ >=? POSITIVE_INFINITY); [reflexivity|].
  destruct (_ >=? _); reflexivity.
Qed.

(** *** RoundedPolygon.star *)

(** Whenever [star] returns, the polygon is the one [fromVertices] builds
    from the [perVertexRounding] argument as the caller gave it: the list
    made from [rounding] and [innerRounding] is not passed on. *)
Lemma star_forwards_perVertexRounding
    (Math_cos Math_sin : num -> num) (Math_PI : num) (len : nat)
    (numVerticesPerRadius : nat) (radius innerRadius : num)
    (rounding : CornerRounding num) (innerRounding : option (CornerRounding num))
    (perVertexRounding : option (list (CornerRounding num))) (centerX centerY : num) :
  star Math_cos Math_sin Math_PI (Some len) numVerticesPerRadius radius innerRadius
       rounding innerRounding perVertexRounding centerX centerY =
  Ok (fromVertices
        (starVerticesFromNumVerts Math_cos Math_sin Math_PI numVerticesPerRadius
                                  radius innerRadius centerX centerY)
        rounding perVertexRounding centerX centerY).
Proof.
  unfold star. destruct perVertexRounding, innerRounding; reflexivity.
Qed.

End ControlFlow.

(** ** Evaluations in binary64 *)

Section Binary64Runs.
Local Open Scope float_scope.
#[local] Set Warnings "-inexact-float".

(** Two values are different when the comparison of one of their numbers
    evaluates to [false]. *)
Ltac differ_by proj :=
  let E := fresh "E" in
  intros E; apply (f_equal proj) in E; vm_compute in E; discriminate E.

(** The constants of the sources are the numbers their literals denote. *)
Example constants_binary64 :
  DistanceEpsilon = 1e-4 /\ AngleEpsilon = 1e-6 /\
  MAX_VALUE = 1.7976931348623157e308 /\
  MIN_SAFE_INTEGER = -9007199254740991 /\
  (NaN =? NaN) = false /\
  positiveModulo (-0.25) 1 = 0.75.
Proof. repeat split; reflexivity. Qed.

(** The scenario of the specification for the mapper with anchors
    (0.1, 0.4) and (0.6, 0.9), up to rounding. *)
Example doubleMapper_scenario :
  let mapper := DoubleMapper_new [(0.1, 0.4); (0.6, 0.9)] in
  DoubleMapper_map mapper 0.35 = Ok 0.64999999999999991 /\
  DoubleMapper_mapBack mapper 0.65 = Ok 0.35000000000000009 /\
  DoubleMapper_map mapper 0.95 = Ok 0.25.
Proof. repeat split; reflexivity. Qed.

(** C1, counterexample: the morph of a square into a rounded square has 8
    pairs, and [asCubics(0.5)] returns 8 cubics, not 9. *)
Lemma asCubics_length_not_one_more :
  Morph_match 64 (square 0) (square 50) = Some (Ok squareMorph) /\
  inUnit 0.5 = true /\
  length squareMorph = 8%nat /\
  length (asCubics squareMorph 0.5) <> (length squareMorph + 1)%nat.
Proof.
  split; [vm_compute; reflexivity|].
  split; [reflexivity|].
  split; [reflexivity|].
  vm_compute. discriminate.
Qed.

(** C7, counterexample: for the morph of a square with corner radius 0.01
    into itself, the last cubic handed to the callback ends at
    (100, 99.99), and the last cubic of [asCubics] at (99.99, 100). *)
Lemma forEachCubic_differs_from_asCubics :
  Morph_match 64 (square 0.01) (square 0.01) = Some (Ok tinyCornerMorph) /\
  inUnit 0.5 = true /\
  snd (forEachCubic tinyCornerMorph 0.5 (Cubic_empty 0 0)) <>
  asCubics tinyCornerMorph 0.5.
Proof.
  split; [vm_compute; reflexivity|].
  split; [reflexivity|].
  differ_by (fun l => PrimFloat.eqb (anchor1X (last l (Cubic_empty 0 0))) 100).
Qed.

(** C9, counterexample: with [min = 3] above [max = 1] the call returns
    3, it does not throw; so does a range object from 3 to 1. *)
Lemma coerceIn_swaps_instead_of_throwing :
  (3 >? 1)%num = true /\
  coerceIn 5 (MinMax 3 1) = Ok 3 /\
  coerceIn 5 (MinOnly (JsRange 3 1)) = Ok 3.
Proof. repeat split; reflexivity. Qed.

(** C10, witness: the measured rounded square, cut at 0.00005. *)
Lemma cutAndShift_below_epsilon_witness :
  exists p,
    measurePolygon LengthMeasurer (square 50) = Ok p /\
    (0.00005 <? DistanceEpsilon)%num = true /\
    cutAndShift p 0.00005 = Ok p.
Proof.
  eexists. split; [vm_compute; reflexivity|].
  split; [reflexivity|].
  apply cutAndShift_below_epsilon. reflexivity.
Defined.

(** *** LengthMeasurer *)

(** C4, at the failing input: the loop of [closestProgressTo] runs for
    [i = 1] and [i = 2] only, so [measureCubic] adds the chords up to
    [t = 2/3] and leaves the third out: a line of length 3 measures 2,
    where the three chords add up to 3. *)
Lemma measureCubic_misses_last_chord :
  measureCubic LengthMeasurer line3 = 2 /\
  threeChordLength line3 = 3 /\
  measureCubic LengthMeasurer line3 <> threeChordLength line3.
Proof.
  split; [reflexivity|].
  split; [reflexivity|].
  differ_by (fun v => PrimFloat.eqb v 2).
Qed.

(** *** RoundedCorner.getCubics *)

(** For a binary64 number [v], [v - v] is 0 when [v] is finite and NaN
    otherwise. *)
Lemma SFcompare_refl (s : bool) (m : positive) (e : Z) :
  SFcompare (S754_finite s m e) (S754_finite s m e) = Some Eq.
Proof.
  cbn [SFcompare].
  change (IntDef.Z.compare e e) with (Z.compare e e).
  rewrite Z.compare_refl.
  change (PosDef.Pos.compare_cont Eq m m) with (Pos.compare m m).
  rewrite Pos.compare_refl. now destruct s.
Qed.

Lemma SFsub_diag (s : bool) (m : positive) (e : Z) :
  SF64sub (S754_finite s m e) (S754_finite s m e) = S754_zero false.
Proof.
  unfold SF64sub, SFsub.
  match goal with
  | |- binary_normalize _ _ (IntDef.Z.sub ?a ?a) _ _ = _ =>
      change (IntDef.Z.sub a a) with (Z.sub a a); rewrite Z.sub_diag
  end.
  reflexivity.
Qed.

Lemma self_difference_small (v : float) :
  (abs (v - v) <? 0.0001) = is_finite v.
Proof.
  rewrite ltb_spec, abs_spec, sub_spec.
  unfold is_finite, is_infinity, is_nan.
  rewrite !eqb_spec, abs_spec.
  destruct (Prim2SF v) as [s|s| |s m e]; try (destruct s; reflexivity); try reflexivity.
  rewrite SFsub_diag. unfold SFeqb. rewrite SFcompare_refl.
  reflexivity.
Qed.

Lemma zeroLength_self (px py : float) :
  zeroLength (straightLine px py px py) = is_finite px && is_finite py.
Proof.
  unfold zeroLength, straightLine. cbn.
  change (@DistanceEpsilon float binary64) with 0.0001.
  now rewrite !self_difference_small.
Qed.

(** C8, as the program computes it, for every corner: when
    [expectedRoundCut], the smaller allowed cut or the corner radius is
    below [DistanceEpsilon], [getCubics] returns exactly one cubic, the
    straight line from [p1] to [p1].  Both its anchors are [p1]; its
    controls are the interpolations of [p1] with itself at 1/3 and at 2/3;
    and [zeroLength] holds of it exactly when the coordinates of [p1] are
    finite.  Otherwise [getCubics] returns exactly three cubics. *)
Theorem getCubics_one_line_or_three (this : RoundedCorner float)
    (allowedCut0 allowedCut1 : float) :
  if nlt (expectedRoundCut this) DistanceEpsilon ||
     nlt (nmin allowedCut0 allowedCut1) DistanceEpsilon ||
     nlt (cornerRadius this) DistanceEpsilon
  then
    exists c,
      snd (getCubics this allowedCut0 allowedCut1) = [c] /\
      mkPoint (anchor0X c) (anchor0Y c) = p1 this /\
      mkPoint (anchor1X c) (anchor1Y c) = p1 this /\
      control0X c = interpolate (x (p1 this)) (x (p1 this)) (1 / 3) /\
      control0Y c = interpolate (y (p1 this)) (y (p1 this)) (1 / 3) /\
      control1X c = interpolate (x (p1 this)) (x (p1 this)) (2 / 3) /\
      control1Y c = interpolate (y (p1 this)) (y (p1 this)) (2 / 3) /\
      zeroLength c = is_finite (x (p1 this)) && is_finite (y (p1 this))
  else
    length (snd (getCubics this allowedCut0 allowedCut1)) = 3%nat.
Proof.
  pose proof (getCubics_shape this allowedCut0 allowedCut1) as H.
  unfold nothingToRound in H.
  destruct (nlt (expectedRoundCut this) DistanceEpsilon ||
            nlt (nmin allowedCut0 allowedCut1) DistanceEpsilon ||
            nlt (cornerRadius this) DistanceEpsilon); [|exact H].
  eexists. split; [exact H|].
  split; [now destruct (p1 this)|].
  split; [now destruct (p1 this)|].
  do 4 (split; [reflexivity|]).
  apply zeroLength_self.
Qed.

(** C8, at the failing input: a corner that asks for no rounding, at
    (250.3, 10).  The test holds and the cubic with anchors and controls
    all at [p1] is of zero length, but it is not the cubic returned: the
    controls are the interpolations of the vertex with itself, which
    binary64 rounds one unit in the last place away from 250.3. *)
Lemma getCubics_control_off_vertex :
  let corner := RoundedCorner_new (mkPoint 0 10) (mkPoint 250.3 10) (mkPoint 250.3 90)
                                  (Some Unrounded) in
  nlt (expectedRoundCut corner) DistanceEpsilon ||
  nlt (nmin 0 0) DistanceEpsilon ||
  nlt (cornerRadius corner) DistanceEpsilon = true /\
  zeroLength (Cubic_create (p1 corner) (p1 corner) (p1 corner) (p1 corner)) = true /\
  snd (getCubics corner 0 0) <>
    [Cubic_create (p1 corner) (p1 corner) (p1 corner) (p1 corner)] /\
  map control0X (snd (getCubics corner 0 0)) = [250.30000000000004].
Proof.
  cbv zeta. split; [reflexivity|]. split; [reflexivity|]. split; [|reflexivity].
  intros H.
  apply (f_equal (fun l => map (fun c => control0X c =? 250.3) l)) in H.
  vm_compute in H. discriminate.
Qed.

(** A corner whose vertex has an infinite abscissa: the one cubic returned
    has both anchors at the vertex and is not of zero length, the
    difference of the two abscissas being NaN. *)
Example getCubics_infinite_vertex :
  let corner := RoundedCorner_new (mkPoint 0 10) (mkPoint infinity 10) (mkPoint 5 90)
                                  (Some Unrounded) in
  snd (getCubics corner 0 0) = [straightLine infinity 10 infinity 10] /\
  zeroLength (straightLine infinity 10 infinity 10) = false.
Proof. split; reflexivity. Qed.

(** *** featureMapper *)

(** C5, at the failing input: every accepted pair is spliced in at index
    0, and the crossing test looks at the [b] of the last and of the first
    entry only.  The pairs come in the order (0.1, 0.1), (0.5, 0.5),
    (0.7, 0.3) and all three are accepted, although 0.1, 0.5, 0.7 go up
    around the circle and 0.1, 0.5, 0.3 do not. *)
Lemma featureMapper_accepts_a_crossing :
  featureMapper features1 features2 =
    Ok (DoubleMapper_new [(0.7, 0.3); (0.5, 0.5); (0.1, 0.1)]) /\
  cyclicOrder 0.1 0.5 0.7 = true /\
  cyclicOrder 0.1 0.5 0.3 = false /\
  cyclicallyOrderPreserving [(0.7, 0.3); (0.5, 0.5); (0.1, 0.1)] = false.
Proof. repeat split; reflexivity. Qed.

(** *** DoubleMapper *)


(** On that mapper of the specification's scenario the round trip of 0.35
    stays within 1e-9 in binary64 as well. *)
Example roundtrip_binary64 :
  let mapper := DoubleMapper_new [(0.1, 0.4); (0.6, 0.9)] in
  exists back,
    bind (DoubleMapper_map mapper 0.35) (DoubleMapper_mapBack mapper) = Ok back /\
    (progressDistance back 0.35 <? 1 / 1000000000)%num = true.
Proof. cbv zeta. eexists. split; vm_compute; reflexivity. Qed.

(** The same happens with wide segments when the anchors are not listed in
    the order of the circle: [a] goes 0.1, 0.5, 0.3 and [b] 0.2, 0.7, 0.4
    (order-preserving as pairs).  [map] finds 0.08 in the segment from 0.5
    around to 0.3 and returns 0.2075, which [mapBack] finds first in the
    segment from 0.2 to 0.7: it returns 0.106. *)
Lemma mapBack_map_far_out_of_order :
  let mapper := DoubleMapper_new [(0.1, 0.2); (0.5, 0.7); (0.3, 0.4)] in
  forallb (fun p => inUnit (fst p) && inUnit (snd p)) (anchors mapper) = true /\
  cyclicallyOrderPreserving (anchors mapper) = true /\
  forallb (fun w => 1 / 1000 <=? w)%num
          (segmentWidths (sourceValues mapper) ++ segmentWidths (targetValues mapper)) = true /\
  inUnit 0.08 = true /\
  exists back,
    bind (DoubleMapper_map mapper 0.08) (DoubleMapper_mapBack mapper) = Ok back /\
    (progressDistance back 0.08 <? 1 / 1000000000)%num = false.
Proof.
  cbv zeta. repeat split; try reflexivity.
  eexists. split; vm_compute; reflexivity.
Qed.

(** *** RoundedPolygon.star *)

(** C2, at the failing input: [star(2, 1, 0.5, CornerRounding(0.1),
    CornerRounding(0.2))], in a host whose global [length] is 0.  The
    polygon returned is the one with every corner rounded by 0.1; the one
    with the alternating list [0.1, 0.2, 0.1, 0.2] is another polygon
    (the arc of its first inner corner starts at another point). *)
Lemma star_drops_innerRounding :
  let outer := mkCornerRounding 0.1 0 in
  let inner := mkCornerRounding 0.2 0 in
  let vertices := starVerticesFromNumVerts host_cos host_sin host_PI 2 1 0.5 0 0 in
  star host_cos host_sin host_PI (Some 0%nat) 2 1 0.5 outer (Some inner) None 0 0 =
    Ok (fromVertices vertices outer None 0 0) /\
  fromVertices vertices outer None 0 0 <>
    fromVertices vertices outer (Some [outer; inner; outer; inner]) 0 0.
Proof.
  cbv zeta. split; [reflexivity|].
  differ_by (fun p : RoundedPolygon float =>
               PrimFloat.eqb (anchor0Y (nth 2 (cubics p) (Cubic_empty 0 0)))
                             0.47763932022500211).
Qed.

End Binary64Runs.

(** ** Laws in exact arithmetic *)

Section ExactArithmetic.
Local Open Scope R_scope.

Lemma ltb_true (a b : R) : a < b -> ExactR.ltb a b = true.
Proof. intros H. unfold ExactR.ltb. now destruct (Rlt_dec a b). Qed.

Lemma ltb_false (a b : R) : b <= a -> ExactR.ltb a b = false.
Proof. intros H. unfold ExactR.ltb. destruct (Rlt_dec a b); [lra | reflexivity]. Qed.

Lemma leb_true (a b : R) : a <= b -> ExactR.leb a b = true.
Proof. intros H. unfold ExactR.leb. now destruct (Rle_dec a b). Qed.

Lemma leb_false (a b : R) : b < a -> ExactR.leb a b = false.
Proof. intros H. unfold ExactR.leb. destruct (Rle_dec a b); [lra | reflexivity]. Qed.

(** Interpolating a number with itself gives it back. *)
Lemma interpolate_same (v fraction : R) : interpolate v v fraction = v.
Proof. unfold interpolate. cbn. ring. Qed.

Lemma straightLine_point (px py : R) : straightLine px py px py = Cubic_empty px py.
Proof. unfold straightLine, Cubic_empty. now rewrite !interpolate_same. Qed.

Lemma zeroLength_empty (px py : R) : zeroLength (Cubic_empty px py) = true.
Proof.
  unfold zeroLength, Cubic_empty, DistanceEpsilon. cbn.
  rewrite !ltb_true; [reflexivity | |];
    unfold Rminus; rewrite Rplus_opp_r, Rabs_R0; lra.
Qed.

(** *** DoubleMapper: positiveModulo and the circle *)

Lemma trunc_small (v : R) : -1 < v < 1 -> ExactR.trunc v = 0%Z.
Proof.
  intros H. unfold ExactR.trunc.
  destruct (Rle_dec 0 v).
  - symmetry. apply Int_part_spec. simpl. lra.
  - replace (Int_part (- v)) with 0%Z; [reflexivity|].
    apply Int_part_spec. simpl. lra.
Qed.

Lemma trunc_one (v : R) : 1 <= v < 2 -> ExactR.trunc v = 1%Z.
Proof.
  intros H. unfold ExactR.trunc.
  destruct (Rle_dec 0 v); [|lra].
  symmetry. apply Int_part_spec. simpl. lra.
Qed.

Lemma rem1_small (v : R) : -1 < v < 1 -> ExactR.rem v 1 = v.
Proof.
  intros H. unfold ExactR.rem.
  replace (v / 1) with v by field.
  rewrite trunc_small by exact H. simpl. ring.
Qed.

Lemma rem1_one (v : R) : 1 <= v < 2 -> ExactR.rem v 1 = v - 1.
Proof.
  intros H. unfold ExactR.rem.
  replace (v / 1) with v by field.
  rewrite trunc_one by exact H. simpl. ring.
Qed.

Lemma pm1_neg (v : R) : -1 < v < 0 -> pm1 v = v + 1.
Proof.
  intros H. unfold pm1, positiveModulo. cbn.
  rewrite (@rem1_small v) by lra. apply rem1_small. lra.
Qed.

Lemma pm1_unit (v : R) : 0 <= v < 1 -> pm1 v = v.
Proof.
  intros H. unfold pm1, positiveModulo. cbn.
  rewrite (@rem1_small v) by lra. rewrite rem1_one by lra. ring.
Qed.

Lemma pm1_one (v : R) : 1 <= v < 2 -> pm1 v = v - 1.
Proof.
  intros H. unfold pm1, positiveModulo. cbn.
  rewrite (@rem1_one v) by lra. rewrite rem1_one by lra. ring.
Qed.

Ltac pm1_case v :=
  destruct (Rlt_dec v 0);
  [ rewrite (@pm1_neg v) in * by lra
  | destruct (Rlt_dec v 1);
    [ rewrite (@pm1_unit v) in * by lra
    | rewrite (@pm1_one v) in * by lra ] ].

Lemma progressInRange_dist (v f t : R) :
  0 <= v < 1 -> 0 <= f < 1 -> 0 <= t < 1 ->
  (progressInRange v f t = true <-> dist f v <= dist f t).
Proof.
  intros Hv Hf Ht. unfold dist.
  pm1_case (v - f); pm1_case (t - f);
    unfold progressInRange; cbn; unfold ExactR.leb;
    destruct (Rle_dec f t); destruct (Rle_dec f v); destruct (Rle_dec v t);
    cbn; split; intros; try reflexivity; try discriminate; try lra.
Qed.

Lemma prefix_0 (g : list R) : prefix g 0 = 0.
Proof. reflexivity. Qed.

Lemma prefix_S (g : list R) : forall i, (i < length g)%nat ->
  prefix g (S i) = prefix g i + nth i g 0.
Proof.
  unfold prefix. induction g as [|v g IH]; intros i Hi; [cbn in Hi; lia|].
  destruct i as [|i].
  - cbn. destruct g; cbn; ring.
  - cbn [firstn Rsum nth] in *. change (firstn (S i) g) with (firstn (S i) g).
    rewrite (IH i) by (cbn in Hi; lia). ring.
Qed.

Lemma prefix_all (g : list R) : prefix g (length g) = Rsum g.
Proof. unfold prefix. now rewrite firstn_all. Qed.

Lemma prefix_step_le (g : list R) (eps : R) :
  Forall (fun w => eps <= w) g ->
  forall i, (i < length g)%nat -> prefix g i + eps <= prefix g (S i).
Proof.
  intros H i Hi. rewrite prefix_S by exact Hi.
  rewrite Forall_forall in H.
  assert (eps <= nth i g 0) by (apply H, nth_In, Hi). lra.
Qed.

Lemma prefix_mono (g : list R) (eps : R) :
  0 <= eps -> Forall (fun w => eps <= w) g ->
  forall i j, (i <= j)%nat -> (j <= length g)%nat -> prefix g i <= prefix g j.
Proof.
  intros He H i j Hij. induction Hij as [|j Hij IH]; intros Hj; [lra|].
  pose proof (@prefix_step_le g eps H j ltac:(lia)). specialize (IH ltac:(lia)). lra.
Qed.

Lemma prefix_strict (g : list R) (eps : R) :
  0 <= eps -> Forall (fun w => eps <= w) g ->
  forall i j, (i < j)%nat -> (j <= length g)%nat -> prefix g i + eps <= prefix g j.
Proof.
  intros He H i j Hij Hj.
  pose proof (@prefix_step_le g eps H i ltac:(lia)).
  pose proof (@prefix_mono g eps He H (S i) j ltac:(lia) Hj). lra.
Qed.

Lemma nth_map_seq (T : Type) (f : nat -> T) (d : T) :
  forall n s i, (i < n)%nat -> nth i (map f (seq s n)) d = f (s + i)%nat.
Proof.
  induction n as [|n IH]; intros s i Hi; [lia|].
  destruct i as [|i]; cbn [seq map nth].
  - now rewrite Nat.add_0_r.
  - rewrite IH by lia. f_equal. lia.
Qed.

Section OnceAround.
Variable l : list R.
Hypothesis H : onceAround l.

Lemma width_dist (i : nat) :
  (i < length l)%nat ->
  width l i = dist (nth i l NaN) (nth ((i + 1) mod length l) l NaN).
Proof.
  intros Hi. unfold width, segmentWidths.
  rewrite nth_map_seq by exact Hi. reflexivity.
Qed.

Lemma segmentWidths_length : length (segmentWidths l) = length l.
Proof. unfold segmentWidths. now rewrite length_map, length_seq. Qed.

Lemma n_pos : (0 < length l)%nat.
Proof.
  destruct (Nat.eq_dec (length l) 0) as [E|E]; [|lia].
  exfalso. apply length_zero_iff_nil in E.
  destruct H as [_ [_ Ho]]. rewrite E in Ho. cbn in Ho. lra.
Qed.

Lemma a_unit (i : nat) : (i < length l)%nat -> 0 <= nth i l NaN < 1.
Proof.
  intros Hi. destruct H as [Hu _]. rewrite Forall_forall in Hu.
  apply Hu, nth_In, Hi.
Qed.

Lemma next_lt (i : nat) : ((i + 1) mod length l < length l)%nat.
Proof. apply Nat.mod_upper_bound. pose proof n_pos. lia. Qed.

Lemma unrolled_0 : unrolled l 0 = 0.
Proof. reflexivity. Qed.

Lemma unrolled_n : unrolled l (length l) = 1.
Proof.
  unfold unrolled. rewrite <- segmentWidths_length, prefix_all. apply H.
Qed.

Lemma unrolled_S (i : nat) :
  (i < length l)%nat -> unrolled l (S i) = unrolled l i + width l i.
Proof. intros Hi. apply prefix_S. now rewrite segmentWidths_length. Qed.

Lemma unrolled_strict (i j : nat) :
  (i < j)%nat -> (j <= length l)%nat -> unrolled l i + 1 / 1000 <= unrolled l j.
Proof.
  intros Hij Hj. apply prefix_strict; [lra | apply H | exact Hij |].
  now rewrite segmentWidths_length.
Qed.

Lemma unrolled_mono (i j : nat) :
  (i <= j)%nat -> (j <= length l)%nat -> unrolled l i <= unrolled l j.
Proof.
  intros Hij Hj. apply prefix_mono with (eps := 1 / 1000); [lra | apply H | exact Hij |].
  now rewrite segmentWidths_length.
Qed.

Lemma unrolled_unit (i : nat) : (i < length l)%nat -> 0 <= unrolled l i < 1.
Proof.
  intros Hi.
  pose proof (@unrolled_mono 0%nat i ltac:(lia) ltac:(lia)) as H0.
  pose proof (@unrolled_strict i (length l) Hi (le_n _)) as H1.
  rewrite unrolled_n in H1. rewrite unrolled_0 in H0. lra.
Qed.

Lemma unrolled_S_le1 (i : nat) : (i < length l)%nat -> unrolled l (S i) <= 1.
Proof. intros Hi. rewrite <- unrolled_n. apply unrolled_mono; lia. Qed.

Lemma width_wide (i : nat) : (i < length l)%nat -> 1 / 1000 <= width l i.
Proof.
  intros Hi. destruct H as [_ [Hw _]]. rewrite Forall_forall in Hw.
  apply Hw, nth_In. now rewrite segmentWidths_length.
Qed.

Lemma next_anchor (i : nat) :
  (i < length l)%nat ->
  nth ((i + 1) mod length l) l NaN = pm1 (nth i l NaN + width l i).
Proof.
  intros Hi. rewrite width_dist by exact Hi. unfold dist.
  pose proof (a_unit Hi). pose proof (a_unit (next_lt i)).
  set (u := nth i l NaN) in *. set (v := nth ((i + 1) mod length l) l NaN) in *.
  pm1_case (v - u).
  - rewrite pm1_one by lra. lra.
  - rewrite pm1_unit by lra. lra.
  - lra.
Qed.

Lemma anchor_step (i : nat) :
  (i < length l)%nat ->
  nth i l NaN = pm1 (nth 0 l NaN + unrolled l i) ->
  nth ((i + 1) mod length l) l NaN = pm1 (nth 0 l NaN + unrolled l (S i)).
Proof.
  intros Hi Hpos. rewrite next_anchor, Hpos, unrolled_S by exact Hi.
  pose proof (a_unit n_pos) as H0.
  pose proof (unrolled_unit Hi) as HP.
  pose proof (unrolled_S_le1 Hi) as HP'. rewrite unrolled_S in HP' by exact Hi.
  pose proof (width_wide Hi) as Hw.
  set (a0 := nth 0 l NaN) in *. set (p := unrolled l i) in *. set (w := width l i) in *.
  replace (a0 + (p + w)) with (a0 + p + w) by ring.
  pm1_case (a0 + p); [lra | reflexivity |].
  rewrite (@pm1_unit (a0 + p - 1 + w)) by lra.
  rewrite (@pm1_one (a0 + p + w)) by lra. lra.
Qed.

Lemma anchor_unrolled (i : nat) :
  (i < length l)%nat -> nth i l NaN = pm1 (nth 0 l NaN + unrolled l i).
Proof.
  induction i as [|i IH]; intros Hi.
  - rewrite unrolled_0, Rplus_0_r.
    pose proof (a_unit Hi). now rewrite pm1_unit.
  - pose proof (@anchor_step i ltac:(lia) (IH ltac:(lia))) as Hs.
    rewrite Nat.mod_small in Hs by lia.
    now replace (i + 1)%nat with (S i) in Hs by lia.
Qed.

(** Where a point [v] lies from anchor [i], in terms of where it lies
    from anchor 0. *)
Lemma located (v : R) (i : nat) :
  0 <= v < 1 -> (i < length l)%nat ->
  (unrolled l i <= dist (nth 0 l NaN) v /\
   dist (nth i l NaN) v = dist (nth 0 l NaN) v - unrolled l i) \/
  (dist (nth 0 l NaN) v < unrolled l i /\
   dist (nth i l NaN) v = dist (nth 0 l NaN) v - unrolled l i + 1).
Proof.
  intros Hv Hi. rewrite (anchor_unrolled Hi). unfold dist.
  pose proof (a_unit n_pos) as H0.
  pose proof (unrolled_unit Hi) as HP.
  set (a0 := nth 0 l NaN) in *. set (p := unrolled l i) in *.
  pm1_case (v - a0); [| |lra];
    (pm1_case (a0 + p); [lra| |]);
    match goal with
    | |- context [pm1 ?e] => pm1_case e
    end; lra.
Qed.

Lemma back_to_point (v : R) :
  0 <= v < 1 -> pm1 (nth 0 l NaN + dist (nth 0 l NaN) v) = v.
Proof.
  intros Hv. unfold dist. pose proof (a_unit n_pos) as H0.
  set (a0 := nth 0 l NaN) in *.
  pm1_case (v - a0); [| |lra].
  - rewrite pm1_one by lra. lra.
  - rewrite pm1_unit by lra. lra.
Qed.

(** Every point lies in a segment. *)
Lemma segment_exists (r : R) :
  0 <= r < 1 ->
  exists i, (i < length l)%nat /\ unrolled l i <= r <= unrolled l (S i).
Proof.
  intros Hr.
  assert (Hk : forall k, (k <= length l)%nat -> r < unrolled l k ->
                         exists i, (i < k)%nat /\ unrolled l i <= r <= unrolled l (S i)).
  { induction k as [|k IH]; intros Hk Hlt.
    - rewrite unrolled_0 in Hlt. lra.
    - destruct (Rle_dec (unrolled l k) r) as [Hle|Hgt].
      + exists k. split; [lia | lra].
      + destruct (IH ltac:(lia) ltac:(lra)) as [i [Hi Hb]].
        exists i. split; [lia | exact Hb]. }
  destruct (Hk (length l) (le_n _)) as [i [Hi Hb]]; [rewrite unrolled_n; lra|].
  now exists i.
Qed.

End OnceAround.

Lemma dist_unit (u v : R) : 0 <= u < 1 -> 0 <= v < 1 -> 0 <= dist u v < 1.
Proof. intros Hu Hv. unfold dist. pm1_case (v - u); lra. Qed.

Lemma findIndex_Some (T : Type) (p : T -> bool) (l : list T) :
  forall k, findIndex p l = Some k -> (k < length l)%nat /\ forall d, p (nth k l d) = true.
Proof.
  induction l as [|v l IH]; intros k H; [discriminate|].
  cbn in H. destruct (p v) eqn:E.
  - injection H as <-. split; [cbn; lia | intros d; exact E].
  - destruct (findIndex p l) as [k'|]; [|discriminate].
    injection H as <-. destruct (IH k' eq_refl) as [Hk Hp].
    split; [cbn; lia | exact Hp].
Qed.

Lemma findIndex_None (T : Type) (p : T -> bool) (l : list T) :
  findIndex p l = None -> forall v, In v l -> p v = false.
Proof.
  induction l as [|w l IH]; intros H v Hin; [contradiction|].
  cbn in H. destruct (p w) eqn:E; [discriminate|].
  destruct (findIndex p l); [discriminate|].
  destruct Hin as [<-|Hin]; [exact E | now apply IH].
Qed.

Lemma ratio_bounds (u w : R) : 0 < w -> 0 <= u <= w -> 0 <= u / w <= 1.
Proof.
  intros Hw Hu. split.
  - apply Rmult_le_pos; [lra|]. left. now apply Rinv_0_lt_compat.
  - apply Rmult_le_reg_r with w; [exact Hw|].
    replace (u / w * w) with u by (field; lra). lra.
Qed.

Lemma ratio_lt (u w : R) : 0 < w -> u < w -> u / w < 1.
Proof.
  intros Hw Hu. apply Rmult_lt_reg_r with w; [exact Hw|].
  replace (u / w * w) with u by (field; lra). lra.
Qed.

Lemma scale_bounds (g t : R) : 0 <= g -> 0 <= t <= 1 -> 0 <= g * t <= g.
Proof. intros Hg Ht. split; nra. Qed.

Lemma scale_lt (g t : R) : 0 < g -> t < 1 -> g * t < g.
Proof. intros Hg Ht. nra. Qed.

Lemma pm1_range (e : R) : 0 <= e < 2 -> 0 <= pm1 e < 1.
Proof. intros He. pm1_case e; lra. Qed.

Lemma unroll_point (b0 p g : R) :
  0 <= b0 < 1 -> 0 <= p < 1 -> 0 <= g -> p + g < 1 ->
  dist b0 (pm1 (pm1 (b0 + p) + g)) = p + g.
Proof.
  intros Hb Hp Hg Hpg. unfold dist.
  pm1_case (b0 + p); [lra| |];
    match goal with
    | |- context [pm1 (?e + g)] => pm1_case (e + g)
    end; try lra;
    match goal with
    | |- pm1 ?e = _ => pm1_case e
    end; lra.
Qed.

Lemma linearMap_found (xs ys : list R) (v : R) (k : nat) :
  findIndex
    (fun i => progressInRange v (nth i xs NaN) (nth ((i + 1) mod length xs) xs NaN))
    (seq 0 (length xs)) = Some k ->
  linearMap xs ys v =
  Ok (pm1 (nth k ys NaN +
           dist (nth k ys NaN) (nth ((k + 1) mod length xs) ys NaN) *
           (if ExactR.ltb (dist (nth k xs NaN) (nth ((k + 1) mod length xs) xs NaN))
                          (1 / 1000)
            then 5 / 10
            else dist (nth k xs NaN) v /
                 dist (nth k xs NaN) (nth ((k + 1) mod length xs) xs NaN)))).
Proof. intros E. unfold linearMap. cbv zeta. rewrite E. reflexivity. Qed.

Section TwoLists.
Variables xs ys : list R.
Hypothesis Hx : onceAround xs.
Hypothesis Hy : onceAround ys.
Hypothesis Hlen : length xs = length ys.

(** What [linearMap] returns, in the coordinates of the unrolled circle:
    the offset of [v] from anchor 0 falls in some segment [i], and the
    offset of the result is at the same fraction of segment [i] of the other
    side. *)
Lemma linearMap_unrolled (v : R) :
  0 <= v < 1 ->
  exists y i,
    linearMap xs ys v = Ok y /\ 0 <= y < 1 /\ (i < length xs)%nat /\
    unrolled xs i <= dist (nth 0 xs NaN) v <= unrolled xs (S i) /\
    dist (nth 0 ys NaN) y =
      unrolled ys i +
      width ys i * ((dist (nth 0 xs NaN) v - unrolled xs i) / width xs i).
Proof.
  intros Hv.
  pose proof (n_pos Hx) as Hn.
  pose proof (dist_unit (a_unit Hx Hn) Hv) as Hr.
  set (r := dist (nth 0 xs NaN) v) in *.
  destruct (findIndex
              (fun i => progressInRange v (nth i xs NaN)
                                        (nth ((i + 1) mod length xs) xs NaN))
              (seq 0 (length xs))) as [k|] eqn:E.
  2:{ exfalso.
      destruct (segment_exists Hx Hr) as [i [Hi Hb]].
      pose proof (findIndex_None _ _ E i) as Hf.
      rewrite in_seq in Hf. specialize (Hf ltac:(lia)). cbv beta in Hf.
      assert (Ht : progressInRange v (nth i xs NaN)
                                   (nth ((i + 1) mod length xs) xs NaN) = true).
      { apply progressInRange_dist;
          [exact Hv | exact (a_unit Hx Hi) | exact (a_unit Hx (next_lt Hx i)) |].
        rewrite <- (width_dist xs Hi).
        pose proof (unrolled_S xs Hi) as HS.
        destruct (located Hx Hv Hi) as [[_ Hd]|[Hlt _]];
          [fold r in Hd | fold r in Hlt]; lra. }
      rewrite Ht in Hf. discriminate. }
  destruct (findIndex_Some _ _ E) as [Hk Hp].
  rewrite length_seq in Hk. specialize (Hp 0%nat).
  rewrite seq_nth in Hp by exact Hk. cbn [Nat.add] in Hp.
  apply progressInRange_dist in Hp;
    [| exact Hv | exact (a_unit Hx Hk) | exact (a_unit Hx (next_lt Hx k))].
  rewrite (@linearMap_found xs ys v k E).
  assert (Hk' : (k < length ys)%nat) by (rewrite <- Hlen; exact Hk).
  pose proof (width_dist ys Hk') as EB. rewrite <- Hlen in EB. rewrite <- EB.
  pose proof (width_dist xs Hk) as EA. rewrite <- EA in *.
  clear EA EB E.
  pose proof (width_wide Hx Hk) as HwAk. pose proof (width_wide Hy Hk') as HwBk.
  pose proof (dist_unit (a_unit Hx Hk) Hv) as Hu.
  pose proof (a_unit Hy Hk') as Hbk.
  assert (Hn' : (0 < length ys)%nat) by lia.
  pose proof (a_unit Hy Hn') as Hb0.
  pose proof (unrolled_unit Hy Hk') as HPB.
  pose proof (unrolled_S ys Hk') as HPBS.
  pose proof (unrolled_S_le1 Hy Hk') as HPB1.
  pose proof (unrolled_S xs Hk) as HPAS.
  pose proof (unrolled_S_le1 Hx Hk) as HPA1.
  pose proof (anchor_unrolled Hy Hk') as Hposb.
  rewrite ltb_false by lra.
  destruct (located Hx Hv Hk) as [[Hle Hd]|[Hlt Hd]];
    [fold r in Hle | fold r in Hlt]; fold r in Hd.
  - (* the point lies in segment [k] of the unrolled circle *)
    rewrite Hd in *.
    pose proof (@ratio_bounds (r - unrolled xs k) (width xs k) ltac:(lra) ltac:(lra)) as Ht.
    set (t := (r - unrolled xs k) / width xs k) in *.
    pose proof (@scale_bounds (width ys k) t ltac:(lra) Ht) as Hs.
    assert (Hq : unrolled ys k + width ys k * t < 1).
    { destruct (Nat.eq_dec (S k) (length ys)) as [Hlast|Hmid].
      - assert (Ht1 : t < 1).
        { apply ratio_lt; [lra|].
          pose proof (unrolled_n Hx) as HPn. rewrite Hlen, <- Hlast in HPn. lra. }
        pose proof (@scale_lt (width ys k) t ltac:(lra) Ht1). lra.
      - pose proof (@unrolled_strict ys Hy (S k) (length ys) ltac:(lia) (le_n _)) as Hst.
        rewrite (unrolled_n Hy) in Hst. lra. }
    exists (pm1 (nth k ys NaN + width ys k * t)), k.
    split; [reflexivity|].
    split; [apply pm1_range; lra|].
    split; [exact Hk|].
    split; [lra|].
    rewrite Hposb. apply unroll_point; try fold r; try fold t; lra.
  - (* the point is anchor 0, found as the end of the last segment *)
    assert (Hr0 : r = 0) by lra.
    assert (HS1 : unrolled xs (S k) = 1) by lra.
    assert (Hlast : S k = length xs).
    { destruct (Nat.eq_dec (S k) (length xs)) as [Hlast|Hmid]; [exact Hlast|].
      exfalso.
      pose proof (@unrolled_strict xs Hx (S k) (length xs) ltac:(lia) (le_n _)) as Hst.
      rewrite (unrolled_n Hx) in Hst. lra. }
    assert (Ht : dist (nth k xs NaN) v / width xs k = 1).
    { rewrite Hd. replace (r - unrolled xs k + 1) with (width xs k) by lra.
      field. lra. }
    rewrite Ht, Rmult_1_r.
    rewrite <- (next_anchor Hy Hk').
    replace ((k + 1) mod length ys)%nat with 0%nat
      by (replace (k + 1)%nat with (length ys) by lia; now rewrite Nat.Div0.mod_same).
    exists (nth 0 ys NaN), 0%nat.
    split; [reflexivity|].
    split; [exact Hb0|].
    split; [exact Hn|].
    pose proof (@unrolled_mono xs Hx 0%nat 1%nat ltac:(lia) ltac:(lia)) as HP1.
    rewrite !unrolled_0 in *.
    split; [lra|].
    rewrite Hr0. unfold dist.
    replace (nth 0 ys NaN - nth 0 ys NaN) with 0 by ring. rewrite pm1_unit by lra.
    unfold Rdiv. ring.
Qed.

End TwoLists.

Lemma progressDistance_same (v : R) : progressDistance v v = 0.
Proof.
  unfold progressDistance. cbn.
  replace (v - v) with 0 by ring. rewrite Rabs_R0.
  apply Rmin_left. lra.
Qed.

Lemma ratio_one (u w : R) : 0 < w -> u / w = 1 -> u = w.
Proof.
  intros Hw H. replace u with (u / w * w) by (field; lra). rewrite H. ring.
Qed.

Lemma ratio_zero (u w : R) : 0 < w -> u / w = 0 -> u = 0.
Proof.
  intros Hw H. replace u with (u / w * w) by (field; lra). rewrite H. ring.
Qed.



Lemma segmentWidths_pair (p q : R) : segmentWidths [p; q] = [dist p q; dist q p].
Proof. reflexivity. Qed.

(** Two anchors at least 0.001 apart both ways go once around. *)
Lemma onceAround_pair (p q : R) :
  0 <= p < 1 -> 0 <= q < 1 -> 1 / 1000 <= q - p <= 999 / 1000 -> onceAround [p; q].
Proof.
  intros Hp Hq Hd. unfold onceAround. rewrite segmentWidths_pair. unfold dist.
  rewrite (@pm1_unit (q - p)), (@pm1_neg (p - q)) by lra.
  repeat split.
  - repeat (apply Forall_cons; [lra|]). apply Forall_nil.
  - repeat (apply Forall_cons; [lra|]). apply Forall_nil.
  - cbn. lra.
Qed.


End ExactArithmetic.

(** ** Further laws of the control flow, in every arithmetic *)

Section FurtherLaws.
Context {num : Type} {A : Arith num}.
Local Open Scope num_scope.

(** *** Cubic.reverse and Feature.reversed *)

Lemma reverse_involutive (c : Cubic num) : reverse (reverse c) = c.
Proof. now destruct c. Qed.

(** X1: reversing a feature twice gives the feature back: [reversed]
    reverses each cubic in place, without changing the order of the list,
    and flips the convexity of a corner; both are undone by a second
    call. *)
Theorem Feature_reversed_involutive (f : Feature num) :
  Feature_reversed (Feature_reversed f) = f /\
  map reverse (map reverse (Feature_cubics f)) = Feature_cubics f.
Proof.
  assert (E : forall cs : list (Cubic num), map reverse (map reverse cs) = cs).
  { intros cs. rewrite map_map. rewrite <- (map_id cs) at 2.
    apply map_ext. intros c. apply reverse_involutive. }
  split; [|apply E].
  destruct f as [cs|cs b]; cbn; rewrite E; [reflexivity|].
  now rewrite negb_involutive.
Qed.

(** *** RoundedPolygon.transformed *)

(** X2: transforming a polygon by [f] and the result by [g] is
    transforming it once by [f] followed by [g]: the features and the
    center are mapped point by point and the cubic list is rebuilt from the
    mapped features each time. *)
Theorem transformed_compose (this : RoundedPolygon num) (f g : num -> num -> Point num) :
  RoundedPolygon_transformed (RoundedPolygon_transformed this f) g =
  RoundedPolygon_transformed this (fun x y => Point_transformed (f x y) g).
Proof.
  unfold RoundedPolygon_transformed, RoundedPolygon_new. cbn [features polygonCenter].
  rewrite map_map.
  assert (E : map (fun feature => Feature_transformed (Feature_transformed feature f) g)
                  (features this) =
              map (fun feature =>
                     Feature_transformed feature (fun x y => Point_transformed (f x y) g))
                  (features this)).
  { apply map_ext. intros [cs|cs b]; cbn; rewrite map_map; reflexivity. }
  rewrite E. reflexivity.
Qed.

(** *** RoundedCorner.getCubics *)

Lemma circularArc_anchors (centerX centerY x0 y0 x1 y1 : num) :
  let arc := circularArc centerX centerY x0 y0 x1 y1 in
  anchor0X arc = x0 /\ anchor0Y arc = y0 /\ anchor1X arc = x1 /\ anchor1Y arc = y1.
Proof.
  cbv zeta. unfold circularArc.
  destruct (_ >? _); cbn; repeat split; reflexivity.
Qed.

(** X3: [getCubics] returns either the single straight line from
    [p1] to [p1], exactly when its opening test holds, or three cubics, the
    flanking curve, the arc and the other flanking curve, each starting on
    the very numbers the one before it ends on. *)
Theorem getCubics_joined (this : RoundedCorner num) (allowedCut0 allowedCut1 : num) :
  match snd (getCubics this allowedCut0 allowedCut1) with
  | [point] =>
      nothingToRound this allowedCut0 allowedCut1 = true /\
      point = straightLine (x (p1 this)) (y (p1 this)) (x (p1 this)) (y (p1 this))
  | [flanking0; arc; flanking2] =>
      nothingToRound this allowedCut0 allowedCut1 = false /\
      anchor1X flanking0 = anchor0X arc /\ anchor1Y flanking0 = anchor0Y arc /\
      anchor1X arc = anchor0X flanking2 /\ anchor1Y arc = anchor0Y flanking2
  | _ => False
  end.
Proof.
  unfold getCubics, nothingToRound.
  destruct ((expectedRoundCut this <? DistanceEpsilon) ||
            (nmin allowedCut0 allowedCut1 <? DistanceEpsilon) ||
            (cornerRadius this <? DistanceEpsilon)); cbn [snd].
  - split; reflexivity.
  - match goal with
    | |- context [circularArc ?cx ?cy ?a ?b ?c ?d] =>
        destruct (circularArc_anchors cx cy a b c d) as [E1 [E2 [E3 E4]]]
    end.
    rewrite E1, E2, E3, E4. repeat split; reflexivity.
Qed.

(** *** Morph.asCubics *)

(** X4: the list [asCubics] returns is empty only for an empty
    match list, and otherwise closes on itself: the last cubic ends on the
    very numbers the first cubic starts on, for every progress. *)
Theorem asCubics_closed (morphMatch : list (Cubic num * Cubic num)) (progress : num) :
  match asCubics morphMatch progress with
  | [] => morphMatch = []
  | first :: rest =>
      anchor1X (last rest first) = anchor0X first /\
      anchor1Y (last rest first) = anchor0Y first
  end.
Proof.
  rewrite asCubics_closed_form. unfold interpolated.
  destruct morphMatch as [|m ms]; [reflexivity|].
  cbn [map].
  destruct (map (fun m0 => interpolateCubic (fst m0) (snd m0) progress) ms) as [|c cs].
  - cbn. split; reflexivity.
  - rewrite removelast_cons2. cbn [app]. rewrite last_last. cbn. split; reflexivity.
Qed.

(** *** featureMapper *)

Lemma distanceVertices_inner_nil (f : nat * ProgressableFeature num)
    (acc : list (DistanceVertex num)) :
  distanceVertices_inner f [] acc = Ok acc.
Proof. reflexivity. Qed.

Lemma distanceVertices_nil_r (features1 : list (nat * ProgressableFeature num)) :
  forall acc : list (DistanceVertex num), distanceVertices features1 [] acc = Ok acc.
Proof.
  induction features1 as [|f fs IH]; intros acc; [reflexivity|].
  cbn. apply IH.
Qed.

(** X5: when one of the two feature lists holds no corner,
    [featureMapper] returns the identity mapper, with the anchors (0, 0)
    and (0.5, 0.5), whatever the other list holds. *)
Theorem featureMapper_without_corners
    (features1 features2 : list (ProgressableFeature num)) :
  forallb (fun f => negb (instanceof_Corner (feature f))) features1 = true \/
  forallb (fun f => negb (instanceof_Corner (feature f))) features2 = true ->
  featureMapper features1 features2 = Ok (DoubleMapper_new IdentityMapping).
Proof.
  assert (F : forall fs : list (ProgressableFeature num),
             forallb (fun f => negb (instanceof_Corner (feature f))) fs = true ->
             filter (fun f => instanceof_Corner (feature f)) fs = []).
  { induction fs as [|f fs IH]; intros H; [reflexivity|].
    cbn in H. apply andb_true_iff in H as [H1 H2].
    cbn. apply negb_true_iff in H1. rewrite H1. now apply IH. }
  intros [H|H]; unfold featureMapper; rewrite (F _ H); unfold doMapping, doMappingOn.
  - reflexivity.
  - unfold enumerate at 2. cbn [length seq combine].
    rewrite distanceVertices_nil_r. reflexivity.
Qed.

(** *** The constructor of MeasuredPolygon *)

Lemma chain_snoc (l : list (MeasuredCubic num)) :
  forall (s e : num) (c : MeasuredCubic num),
    chain s l e -> startOutlineProgress c = e ->
    chain s (l ++ [c]) (endOutlineProgress c).
Proof.
  induction l as [|c0 l IH]; intros s e c H Hc; cbn in *.
  - split; [now rewrite H | reflexivity].
  - destruct H as [H1 H2]. split; [exact H1|]. now apply IH with e.
Qed.

Lemma chain_relast (l : list (MeasuredCubic num)) :
  forall (s e : num) (c : MeasuredCubic num) (e' : num),
    chain s (l ++ [c]) e ->
    chain s (l ++ [updateProgressRange c (startOutlineProgress c) e']) e'.
Proof.
  induction l as [|c0 l IH]; intros s e c e' H; cbn in *.
  - destruct H as [H1 _]. split; [exact H1 | reflexivity].
  - destruct H as [H1 H2]. split; [exact H1|]. now apply IH with e.
Qed.

Lemma MeasuredPolygon_loop_chain (measurer : Measurer num) (outlineProgress : list num)
    (cubics : list (Cubic num)) :
  forall (i : nat) (start : num) (acc : list (MeasuredCubic num)),
    chain (ofZ 0) acc start ->
    exists e, chain (ofZ 0)
                (MeasuredPolygon_loop measurer outlineProgress cubics i start acc) e.
Proof.
  induction cubics as [|c cs IH]; intros i start acc H; cbn.
  - now exists start.
  - destruct (_ >? _).
    + apply IH.
      apply (@chain_snoc acc (ofZ 0) start
               (MeasuredCubic_new measurer c start (nth (i + 1) outlineProgress NaN)) H).
      reflexivity.
    + now apply IH.
Qed.

Lemma MeasuredPolygon_loop_nil (measurer : Measurer num) (outlineProgress : list num)
    (cubics : list (Cubic num)) :
  forall (i : nat) (start : num) (acc : list (MeasuredCubic num)),
    MeasuredPolygon_loop measurer outlineProgress cubics i start acc = [] ->
    acc = [] /\
    forall k, (k < length cubics)%nat ->
      (nth (i + k + 1) outlineProgress NaN - nth (i + k) outlineProgress NaN
         >? DistanceEpsilon) = false.
Proof.
  induction cubics as [|c cs IH]; intros i start acc H; cbn in H.
  - split; [exact H | cbn; lia].
  - destruct (_ >? _) eqn:E.
    + apply IH in H as [H _]. now destruct acc.
    + apply IH in H as [H1 H2]. split; [exact H1|].
      intros [|k] Hk.
      * now rewrite Nat.add_0_r.
      * cbn in Hk. specialize (H2 k ltac:(lia)).
        now replace (i + S k)%nat with (S i + k)%nat by lia.
Qed.

Lemma MeasuredPolygon_new_spec (measurer : Measurer num)
    (features : list (ProgressableFeature num)) (cubics : list (Cubic num))
    (outlineProgress : list num) :
  match MeasuredPolygon_new measurer features cubics outlineProgress with
  | Ok p =>
      measuredCubics p <> [] /\ chain (ofZ 0) (measuredCubics p) (ofZ 1) /\
      measuredFeatures p = features
  | Throw _ =>
      forall i, (i < length cubics)%nat ->
        (nth (i + 1) outlineProgress NaN - nth i outlineProgress NaN >? DistanceEpsilon) = false
  end.
Proof.
  unfold MeasuredPolygon_new.
  destruct (MeasuredPolygon_loop_chain measurer outlineProgress cubics 0 (ofZ 0) []
              eq_refl) as [e He].
  destruct (rev (MeasuredPolygon_loop measurer outlineProgress cubics 0 (ofZ 0) []))
    as [|lastMeasured front] eqn:E.
  - apply (f_equal (@rev _)) in E. rewrite rev_involutive in E. cbn in E.
    apply MeasuredPolygon_loop_nil in E as [_ E]. exact E.
  - apply (f_equal (@rev _)) in E. rewrite rev_involutive in E. cbn [rev] in E.
    rewrite E in He. cbn [measuredCubics measuredFeatures].
    split; [now destruct (rev front)|].
    split; [|reflexivity].
    now apply chain_relast with e.
Qed.

(** X6: whenever the constructor of [MeasuredPolygon] returns, its
    measured cubics are not empty and their progress ranges form a chain
    from 0 to 1, each range starting where the one before it ends, and the
    features are those it was given; it throws only when no cubic spans
    more than [DistanceEpsilon] of the outline progress. *)
Theorem MeasuredPolygon_new_chain (measurer : Measurer num)
    (features : list (ProgressableFeature num)) (cubics : list (Cubic num))
    (outlineProgress : list num) :
  match MeasuredPolygon_new measurer features cubics outlineProgress with
  | Ok p =>
      measuredCubics p <> [] /\ chain (ofZ 0) (measuredCubics p) (ofZ 1) /\
      measuredFeatures p = features
  | Throw _ =>
      forall i, (i < length cubics)%nat ->
        (nth (i + 1) outlineProgress NaN - nth i outlineProgress NaN >? DistanceEpsilon) = false
  end.
Proof. apply MeasuredPolygon_new_spec. Qed.

(** X7: [cutAndShift] returns the receiver for a cutting point
    below [DistanceEpsilon]; otherwise, whenever it returns, the measured
    cubics of the result form a chain from 0 to 1 again and every feature
    keeps its place in the list, its progress shifted back by the cutting
    point modulo 1.  It throws only past the early exit. *)
Theorem cutAndShift_chain (this : MeasuredPolygon num) (cuttingPoint : num) :
  match cutAndShift this cuttingPoint with
  | Ok p =>
      if cuttingPoint <? DistanceEpsilon then p = this
      else
        measuredCubics p <> [] /\ chain (ofZ 0) (measuredCubics p) (ofZ 1) /\
        measuredFeatures p =
          map (fun f => mkProgressableFeature
                          (positiveModulo (progress f - cuttingPoint) (ofZ 1)) (feature f))
              (measuredFeatures this)
  | Throw _ => (cuttingPoint <? DistanceEpsilon) = false
  end.
Proof.
  unfold cutAndShift.
  destruct (cuttingPoint <? DistanceEpsilon); [reflexivity|].
  destruct (findIndex _ _) as [targetIndex|]; [|reflexivity].
  destruct (cutAtProgress _ _ _) as [[b1 b2]|m]; cbn [bind]; [|reflexivity].
  match goal with
  | |- match MeasuredPolygon_new ?m ?f ?c ?o with _ => _ end =>
      pose proof (MeasuredPolygon_new_spec m f c o) as H;
      destruct (MeasuredPolygon_new m f c o)
  end; [exact H | reflexivity].
Qed.

(** *** fromVertices *)

Lemma flat_map_pair_length (T : Type) (f g : nat -> T) :
  forall n s, length (flat_map (fun i => [f i; g i]) (seq s n)) = (2 * n)%nat.
Proof.
  induction n as [|n IH]; intros s; [reflexivity|].
  cbn [seq flat_map app length]. rewrite IH. lia.
Qed.

Lemma flat_map_pair_nth (T : Type) (f g : nat -> T) :
  forall n s i, (i < n)%nat ->
    nth_error (flat_map (fun i => [f i; g i]) (seq s n)) (2 * i) = Some (f (s + i)%nat) /\
    nth_error (flat_map (fun i => [f i; g i]) (seq s n)) (2 * i + 1) = Some (g (s + i)%nat).
Proof.
  induction n as [|n IH]; intros s i Hi; [lia|].
  cbn [seq flat_map app].
  destruct i as [|i].
  - cbn. now rewrite Nat.add_0_r.
  - replace (2 * S i)%nat with (S (S (2 * i))) by lia.
    replace (S (S (2 * i)) + 1)%nat with (S (S (2 * i + 1))) by lia.
    cbn [nth_error].
    destruct (IH (S s) i ltac:(lia)) as [H1 H2].
    rewrite H1, H2. now replace (S s + i)%nat with (s + S i)%nat by lia.
Qed.

Lemma getCubics_one_or_three (this : RoundedCorner num) (allowedCut0 allowedCut1 : num) :
  length (snd (getCubics this allowedCut0 allowedCut1)) = 1%nat \/
  length (snd (getCubics this allowedCut0 allowedCut1)) = 3%nat.
Proof.
  pose proof (getCubics_shape this allowedCut0 allowedCut1) as H.
  destruct (nothingToRound this allowedCut0 allowedCut1); [left; now rewrite H | now right].
Qed.

Lemma fromVertices_shape (vertices : list num) (rounding : CornerRounding num)
    (perVertexRounding : option (list (CornerRounding num))) (centerX centerY : num) :
  cornersAndEdges (length vertices / 2)
    (features (fromVertices vertices rounding perVertexRounding centerX centerY)).
Proof.
  unfold cornersAndEdges, fromVertices, fromFeatures, RoundedPolygon_new. cbv zeta.
  cbn [features].
  set (n := (length vertices / 2)%nat).
  match goal with
  | |- context [flat_map (fun i => [Corner (nth i ?corners []) (@?cv i); Edge [@?ed i]])
                         (seq 0 n)] =>
      set (cornerList := corners); set (cnvx := cv)
  end.
  set (corner := fun i => Corner (nth i cornerList []) (cnvx i)).
  set (edge := fun i => Edge [straightLine
                         (anchor1X (at_last (nth i cornerList [])))
                         (anchor1Y (at_last (nth i cornerList [])))
                         (anchor0X (at_first (nth ((i + 1) mod n) cornerList [])))
                         (anchor0Y (at_first (nth ((i + 1) mod n) cornerList [])))]).
  match goal with
  | |- context [flat_map ?F (seq 0 n)] => change F with (fun i => [corner i; edge i])
  end.
  split; [apply flat_map_pair_length|].
  intros i Hi.
  assert (Hn : ((i + 1) mod n < n)%nat) by (apply Nat.mod_upper_bound; lia).
  destruct (flat_map_pair_nth corner edge 0 Hi) as [E1 E2].
  destruct (flat_map_pair_nth corner edge 0 Hn) as [E3 _].
  subst corner edge.
  cbn beta in E1, E2, E3. cbn [Nat.add] in E1, E2, E3.
  do 5 eexists.
  split; [exact E1|].
  split; [|split; [exact E2|split; [exact E3|]]].
  - subst cornerList. rewrite nth_map_seq by exact Hi. apply getCubics_one_or_three.
  - repeat split.
Qed.

(** X8: for an even number of coordinates, the polygon
    [fromVertices] builds has two features for each vertex, a corner of one
    or three cubics followed by an edge of one cubic, and each edge starts
    on the numbers its corner ends on and ends on the numbers the next
    corner, cyclically, starts on. *)
Theorem fromVertices_features (vertices : list num) (rounding : CornerRounding num)
    (perVertexRounding : option (list (CornerRounding num))) (centerX centerY : num) :
  Nat.even (length vertices) = true ->
  cornersAndEdges (length vertices / 2)
    (features (fromVertices vertices rounding perVertexRounding centerX centerY)).
Proof. intros _. apply fromVertices_shape. Qed.

(** *** measurePolygon *)

Lemma flattenFeatures_inner (feature : Feature num) (L : nat) (P : Feature num -> Prop) :
  forall (l : list (nat * Cubic num)) (cubics : list (Cubic num))
         (featureToCubic : list (Feature num * nat)),
    (instanceof_Corner feature = true -> Nat.even L = true -> P feature) ->
    Forall (fun e => P (fst e)) featureToCubic ->
    Forall (fun e => P (fst e))
      (snd (fold_left
         (fun '(cubics, featureToCubic) '(cubicIndex, c) =>
            (cubics ++ [c],
             if instanceof_Corner feature && Nat.eqb (2 * cubicIndex) L
             then featureToCubic ++ [(feature, length cubics)]
             else featureToCubic))
         l (cubics, featureToCubic))) /\
    fst (fold_left
         (fun '(cubics, featureToCubic) '(cubicIndex, c) =>
            (cubics ++ [c],
             if instanceof_Corner feature && Nat.eqb (2 * cubicIndex) L
             then featureToCubic ++ [(feature, length cubics)]
             else featureToCubic))
         l (cubics, featureToCubic)) = cubics ++ map snd l.
Proof.
  induction l as [|[k c] l IH]; intros cubics ftc HP H.
  - cbn. now rewrite app_nil_r.
  - cbn [fold_left map snd].
    replace (cubics ++ c :: map snd l) with ((cubics ++ [c]) ++ map snd l)
      by now rewrite <- app_assoc.
    apply IH; [exact HP|].
    destruct (instanceof_Corner feature && Nat.eqb (2 * k) L) eqn:E; [|exact H].
    apply andb_true_iff in E as [E1 E2]. apply Nat.eqb_eq in E2.
    apply Forall_app. split; [exact H|].
    constructor; [|constructor]. cbn. apply HP; [exact E1|].
    subst L. rewrite Nat.even_mul. reflexivity.
Qed.

Lemma map_snd_combine_seq (T : Type) (l : list T) :
  forall s, map snd (combine (seq s (length l)) l) = l.
Proof.
  induction l as [|a l IH]; intros s; [reflexivity|].
  cbn. now rewrite IH.
Qed.

Lemma flattenFeatures_fold (P : Feature num -> Prop) (features : list (Feature num)) :
  forall (cubics : list (Cubic num)) (featureToCubic : list (Feature num * nat)),
    (forall f, In f features -> evenCorner f -> P f) ->
    Forall (fun e => P (fst e)) featureToCubic ->
    let r :=
      fold_left
        (fun '(cubics, featureToCubic) feature =>
           fold_left
             (fun '(cubics, featureToCubic) '(cubicIndex, c) =>
                (cubics ++ [c],
                 if instanceof_Corner feature &&
                    Nat.eqb (2 * cubicIndex) (length (Feature_cubics feature))
                 then featureToCubic ++ [(feature, length cubics)]
                 else featureToCubic))
             (combine (seq 0 (length (Feature_cubics feature))) (Feature_cubics feature))
             (cubics, featureToCubic))
        features (cubics, featureToCubic) in
    Forall (fun e => P (fst e)) (snd r) /\
    fst r = cubics ++ flat_map (@Feature_cubics num) features.
Proof.
  induction features as [|f fs IH]; intros cubics ftc HP H.
  - cbn. now rewrite app_nil_r.
  - cbn [fold_left flat_map].
    destruct (@flattenFeatures_inner f (length (Feature_cubics f)) P
                (combine (seq 0 (length (Feature_cubics f))) (Feature_cubics f))
                cubics ftc) as [H1 H2]; [|exact H|].
    { intros Hc He. apply HP; [now left | now split]. }
    rewrite map_snd_combine_seq in H2.
    destruct (fold_left _ (combine _ _) (cubics, ftc)) as [cubics' ftc'].
    cbn [fst snd] in H1, H2. subst cubics'.
    rewrite app_assoc.
    apply IH; [|exact H1].
    intros g Hg. apply HP. now right.
Qed.

Lemma flattenFeatures_records (features : list (Feature num)) :
  fst (flattenFeatures features) = flat_map (@Feature_cubics num) features /\
  Forall (fun e => In (fst e) features /\ evenCorner (fst e))
         (snd (flattenFeatures features)).
Proof.
  destruct (@flattenFeatures_fold (fun f => In f features /\ evenCorner f) features [] [])
    as [H1 H2]; [now intros f Hf He | constructor |].
  split; [exact H2 | exact H1].
Qed.

Lemma measurePolygon_spec (measurer : Measurer num) (polygon : RoundedPolygon num) :
  match measurePolygon measurer polygon with
  | Ok p =>
      measuredCubics p <> [] /\ chain (ofZ 0) (measuredCubics p) (ofZ 1) /\
      Forall (fun f => In (feature f) (features polygon) /\ evenCorner (feature f))
             (measuredFeatures p)
  | Throw _ => True
  end.
Proof.
  unfold measurePolygon.
  destruct (flattenFeatures_records (features polygon)) as [_ HF].
  destruct (flattenFeatures (features polygon)) as [cubics featureToCubic].
  cbn [snd] in HF.
  destruct (measures_scan measurer cubics [ofZ 0]) as [measures|m]; cbn [bind]; [|exact I].
  match goal with
  | |- match MeasuredPolygon_new ?m ?f ?c ?o with _ => _ end =>
      pose proof (MeasuredPolygon_new_spec m f c o) as H;
      destruct (MeasuredPolygon_new m f c o)
  end; [|exact I].
  destruct H as (H1 & H2 & H3). split; [exact H1|]. split; [exact H2|].
  rewrite H3. apply Forall_map.
  revert HF. apply Forall_impl. now intros [f ix].
Qed.

(** X9: whenever [measurePolygon] returns, the measured cubics
    form a chain from 0 to 1, and every feature it records is a corner of
    the polygon with an even number of cubics: the test
    [cubicIndex == feature.cubics.length / 2] divides as numbers, so a
    corner of one or three cubics is never recorded. *)
Theorem measurePolygon_measured (measurer : Measurer num) (polygon : RoundedPolygon num) :
  match measurePolygon measurer polygon with
  | Ok p =>
      measuredCubics p <> [] /\ chain (ofZ 0) (measuredCubics p) (ofZ 1) /\
      Forall (fun f => In (feature f) (features polygon) /\ evenCorner (feature f))
             (measuredFeatures p)
  | Throw _ => True
  end.
Proof. apply measurePolygon_spec. Qed.

(** X10: measuring a polygon made by [fromVertices] records no
    feature at all, its corners having one or three cubics; so for such a
    polygon [featureMapper] returns the identity mapper against any other
    feature list. *)
Theorem measurePolygon_fromVertices (measurer : Measurer num)
    (vertices : list num) (rounding : CornerRounding num)
    (perVertexRounding : option (list (CornerRounding num))) (centerX centerY : num) :
  Nat.even (length vertices) = true ->
  match measurePolygon measurer
          (fromVertices vertices rounding perVertexRounding centerX centerY) with
  | Ok p =>
      measuredFeatures p = [] /\
      forall features2,
        featureMapper (measuredFeatures p) features2 = Ok (DoubleMapper_new IdentityMapping)
  | Throw _ => True
  end.
Proof.
  intros _.
  pose proof (measurePolygon_spec measurer
                (fromVertices vertices rounding perVertexRounding centerX centerY)) as H.
  destruct (measurePolygon _ _) as [p|]; [|exact I].
  destruct H as (_ & _ & H).
  destruct (measuredFeatures p) as [|f fs]; [split; reflexivity|exfalso].
  apply Forall_inv in H. destruct H as [Hin [Hc He]].
  destruct (fromVertices_shape vertices rounding perVertexRounding centerX centerY)
    as [Hlen Hnth].
  apply In_nth_error in Hin as [j Hj].
  assert (Hjl : (j < 2 * (length vertices / 2))%nat).
  { rewrite <- Hlen. apply nth_error_Some. now rewrite Hj. }
  destruct (Hnth (j / 2)%nat) as (cs & b & e & cs' & b' & E1 & Hcs & E2 & _).
  { apply Nat.Div0.div_lt_upper_bound. lia. }
  pose proof (Nat.div_mod_eq j 2) as Hdm.
  assert (Hm : (j mod 2 < 2)%nat) by (apply Nat.mod_upper_bound; lia).
  destruct (j mod 2)%nat as [|[|?]] eqn:Em; [| |lia].
  - rewrite Nat.add_0_r in Hdm. rewrite <- Hdm in E1. rewrite E1 in Hj.
    injection Hj as Hj. rewrite <- Hj in He. cbn in He.
    destruct Hcs as [Hcs|Hcs]; rewrite Hcs in He; discriminate.
  - rewrite <- Hdm in E2. rewrite E2 in Hj. injection Hj as Hj. rewrite <- Hj in Hc.
    discriminate.
Qed.

(** *** linearMap *)

Lemma findIndex_None_iff (T : Type) (p : T -> bool) (l : list T) :
  findIndex p l = None <-> forall v, In v l -> p v = false.
Proof.
  induction l as [|a l IH]; cbn.
  - split; [intros _ v [] | reflexivity].
  - destruct (p a) eqn:E.
    + split; [discriminate|]. intros H. rewrite (H a) in E; [discriminate | now left].
    + destruct (findIndex p l) eqn:F; cbn.
      * split; [discriminate|]. intros H.
        assert (N : Some n = None) by (apply IH; intros v Hv; apply H; now right).
        discriminate N.
      * split; [|reflexivity]. intros _ v [<-|Hv]; [exact E|].
        now apply IH.
Qed.

(** X11: [linearMap] throws exactly when [x] is in the range of
    no segment of [xValues], from an element to the next one cyclically; in
    particular it throws for every [x] when [xValues] is empty. *)
Theorem linearMap_throws_iff (xValues yValues : list num) (x : num) :
  (exists message, linearMap xValues yValues x = Throw message) <->
  forall i, (i < length xValues)%nat ->
    progressInRange x (nth i xValues NaN)
                    (nth ((i + 1) mod length xValues) xValues NaN) = false.
Proof.
  unfold linearMap. cbv zeta.
  destruct (findIndex _ _) as [k|] eqn:E.
  - split.
    + intros [m Hm]. discriminate Hm.
    + intros H. exfalso.
      assert (N : findIndex
                    (fun i => progressInRange x (nth i xValues NaN)
                                (nth ((i + 1) mod length xValues) xValues NaN))
                    (seq 0 (length xValues)) = None).
      { apply findIndex_None_iff. intros i Hi. apply in_seq in Hi. apply H. lia. }
      congruence.
  - split.
    + intros _ i Hi.
      apply (proj1 (findIndex_None_iff _ _) E). apply in_seq. lia.
    + intros _. eexists. reflexivity.
Qed.

(** *** buildCubicList *)

Lemma keptSoFar_step (st : BuildState num) (k : nat) (c : Cubic num) :
  keptSoFar st k ->
  keptSoFar (buildCubicList_step st c) (k + if zeroLength c then 0 else 1).
Proof.
  unfold keptSoFar, buildCubicList_step.
  destruct st as [r [f|] [l|]]; cbn [firstCubic lastCubic result_];
    destruct (zeroLength c); cbn [negb firstCubic lastCubic result_];
    intros H; try contradiction; try rewrite length_app; cbn [length]; try lia.
  - destruct H as [-> ->]. now split.
  - destruct H as [-> ->]. reflexivity.
Qed.

Lemma keptSoFar_fold (cs : list (Cubic num)) :
  forall st k,
    keptSoFar st k ->
    keptSoFar (fold_left buildCubicList_step cs st)
              (k + length (filter (fun c => negb (zeroLength c)) cs)).
Proof.
  induction cs as [|c cs IH]; intros st k H.
  - cbn. now rewrite Nat.add_0_r.
  - cbn [fold_left filter].
    apply (@keptSoFar_step st k c) in H. apply IH in H.
    destruct (zeroLength c); cbn [negb length] in *.
    + now rewrite Nat.add_0_r in H.
    + now replace (k + S (length (filter (fun c => negb (zeroLength c)) cs)))%nat
        with (k + 1 + length (filter (fun c => negb (zeroLength c)) cs))%nat by lia.
Qed.

Lemma fold_pick (pick : nat -> option (list (Cubic num))) (indices : list nat) :
  forall st,
    fold_left
      (fun st i =>
         match pick i with
         | Some featureCubics => fold_left buildCubicList_step featureCubics st
         | None => st
         end)
      indices st =
    fold_left buildCubicList_step
      (flat_map (fun i => match pick i with Some cs => cs | None => [] end) indices) st.
Proof.
  induction indices as [|i indices IH]; intros st; [reflexivity|].
  cbn [fold_left flat_map]. rewrite fold_left_app, IH.
  now destruct (pick i).
Qed.

Lemma flat_map_nth_error (T U : Type) (g : T -> list U) (l : list T) :
  forall (pre : list T),
    flat_map (fun i => match nth_error (pre ++ l) i with Some a => g a | None => [] end)
             (seq (length pre) (length l)) =
    flat_map g l.
Proof.
  induction l as [|a l IH]; intros pre; [reflexivity|].
  cbn [length seq flat_map].
  rewrite nth_error_app2 by lia. rewrite Nat.sub_diag. cbn [nth_error].
  f_equal.
  specialize (IH (pre ++ [a])).
  rewrite <- app_assoc in IH. cbn [app] in IH.
  rewrite length_app in IH. cbn [length] in IH.
  now replace (length pre + 1)%nat with (S (length pre)) in IH by lia.
Qed.

Lemma flat_map_ext_on (T U : Type) (f g : T -> list U) (l : list T) :
  (forall a, In a l -> f a = g a) -> flat_map f l = flat_map g l.
Proof.
  induction l as [|a l IH]; intros H; [reflexivity|].
  cbn [flat_map]. rewrite (H a) by now left. rewrite IH; [reflexivity|].
  intros b Hb. apply H. now right.
Qed.

Lemma traversed_pieces (features : list (Feature num))
    (splitStart splitEnd : option (list (Cubic num))) :
  (splitStart, splitEnd) =
    match features with
    | f0 :: _ =>
        match Feature_cubics f0 with
        | [c0; centerCubic; c2] =>
            let '(start, end_) := split centerCubic (ofZ 5 / ofZ 10) in
            (Some [c0; start], Some [end_; c2])
        | _ => (None, None)
        end
    | [] => (None, None)
    end ->
  flat_map (fun i => match featureCubicsAt features splitStart splitEnd i with
                     | Some cs => cs
                     | None => []
                     end)
           (seq 0 (S (length features))) =
  traversed features.
Proof.
  intros E.
  destruct features as [|f0 rest].
  - injection E as -> ->. reflexivity.
  - assert (M : flat_map
                  (fun i => match featureCubicsAt (f0 :: rest) splitStart splitEnd i with
                            | Some cs => cs
                            | None => []
                            end)
                  (seq 1 (length rest)) = flat_map (@Feature_cubics num) rest).
    { rewrite <- (flat_map_nth_error (@Feature_cubics num) rest [f0]).
      cbn [length app]. apply flat_map_ext_on. intros i Hi. apply in_seq in Hi.
      unfold featureCubicsAt. destruct i as [|i]; [lia|].
      cbn [length]. destruct (Nat.eqb_spec (S i) (S (length rest))) as [Q|Q]; [lia|].
      now destruct (nth_error (f0 :: rest) (S i)). }
    cbn [length].
    change (seq 0 (S (S (length rest)))) with (0%nat :: seq 1 (S (length rest))).
    rewrite seq_S.
    cbn [flat_map]. rewrite flat_map_app. cbn [flat_map Nat.add]. rewrite M.
    rewrite app_nil_r.
    unfold featureCubicsAt at 2. cbn [length]. rewrite Nat.eqb_refl.
    unfold traversed.
    destruct (Feature_cubics f0) as [|c0 [|cc [|c2 [|c3 cs]]]] eqn:F;
      injection E as -> ->;
      cbn [featureCubicsAt length Nat.eqb nth_error option_map flat_map];
      rewrite ?app_nil_r, ?F; reflexivity.
Qed.

(** X12: [buildCubicList] returns as many cubics as it went through
    that are not of zero length, the cubics of the features with the middle
    cubic of a first feature of three cubics split in two, and one cubic
    when there is none. *)
Theorem buildCubicList_length (features : list (Feature num)) (center : Point num) :
  length (buildCubicList features center) =
  Nat.max 1 (length (filter (fun c => negb (zeroLength c)) (traversed features))).
Proof.
  unfold buildCubicList.
  pose proof (traversed_pieces features) as T.
  destruct (match features with
            | [] => (None, None)
            | f0 :: _ => _
            end) as [splitStart splitEnd].
  specialize (T splitStart splitEnd eq_refl).
  rewrite fold_pick, T.
  pose proof (@keptSoFar_fold (traversed features) (mkBuildState [] None None) 0
                (conj eq_refl eq_refl)) as K.
  cbn [Nat.add] in K. unfold keptSoFar in K.
  destruct (fold_left buildCubicList_step (traversed features) _) as [r [f|] [l|]];
    cbn [firstCubic lastCubic result_] in *; try contradiction.
  - rewrite length_app. cbn [length]. lia.
  - destruct K as [-> K]. rewrite K. reflexivity.
Qed.

(** *** doMapping *)

Lemma splice_insert_length (T : Type) (l : list T) (start : Z) (item : T) :
  length (splice_insert l start item) = S (length l).
Proof.
  unfold splice_insert. cbv zeta.
  rewrite length_app. cbn [length].
  rewrite length_firstn, length_skipn. lia.
Qed.

Lemma existsb_eqb_false (k : nat) (l : list nat) :
  existsb (Nat.eqb k) l = false -> ~ In k l.
Proof.
  intros H Hin.
  assert (E : existsb (Nat.eqb k) l = true).
  { apply existsb_exists. exists k. split; [exact Hin | apply Nat.eqb_refl]. }
  congruence.
Qed.

Lemma addMapping_among (ids1 ids2 : list nat) (this this' : MappingHelper num)
    (v1 v2 : nat * ProgressableFeature num) :
  helperAmong ids1 ids2 this -> In (fst v1) ids1 -> In (fst v2) ids2 ->
  addMapping this v1 v2 = Ok this' ->
  helperAmong ids1 ids2 this' /\ (length (mapping this) <= length (mapping this'))%nat /\
  (mapping this = [] -> length (mapping this') = 1%nat).
Proof.
  intros H H1 H2 E.
  assert (Added : forall start,
             existsb (Nat.eqb (fst v1)) (usedF1 this) = false ->
             existsb (Nat.eqb (fst v2)) (usedF2 this) = false ->
             let h := mkMappingHelper
                        (splice_insert (mapping this) start
                                       (progress (snd v1), progress (snd v2)))
                        (fst v1 :: usedF1 this) (fst v2 :: usedF2 this) in
             helperAmong ids1 ids2 h /\ (length (mapping this) <= length (mapping h))%nat /\
             (mapping this = [] -> length (mapping h) = 1%nat)).
  { intros start U1 U2. cbv zeta. unfold helperAmong. cbn [mapping usedF1 usedF2].
    rewrite splice_insert_length. cbn [length].
    destruct H as (L1 & L2 & D1 & D2 & F1 & F2).
    split; [split; [lia|]|].
    - split; [lia|].
      split; [constructor; [now apply existsb_eqb_false | exact D1]|].
      split; [constructor; [now apply existsb_eqb_false | exact D2]|].
      split; now apply incl_cons.
    - split; [lia|]. intros ->. reflexivity. }
  unfold addMapping in E.
  destruct (existsb (Nat.eqb (fst v1)) (usedF1 this)) eqn:U1.
  { cbn [orb] in E. injection E as <-.
    split; [exact H|]. split; [lia|]. intros M.
    destruct H as (L1 & _). rewrite M in L1. destruct (usedF1 this); discriminate. }
  destruct (existsb (Nat.eqb (fst v2)) (usedF2 this)) eqn:U2.
  { cbn [orb] in E. injection E as <-.
    split; [exact H|]. split; [lia|]. intros M.
    destruct H as (_ & L2 & _). rewrite M in L2. destruct (usedF2 this); discriminate. }
  cbn [orb] in E. cbv zeta in E.
  destruct (Z.of_nat (length (mapping this)) >=? 1)%Z eqn:N.
  - assert (NE : mapping this <> []).
    { intros M. rewrite M in N. cbn in N. discriminate. }
    destruct (array_get _ _) as [[before1 before2]|]; [|discriminate E].
    destruct (array_get _ _) as [[after1 after2]|]; [|discriminate E].
    destruct (_ || _) in E.
    { injection E as <-. split; [exact H|]. split; [lia | contradiction]. }
    destruct (_ && _) in E.
    { injection E as <-. split; [exact H|]. split; [lia | contradiction]. }
    injection E as <-. now apply Added.
  - injection E as <-. now apply Added.
Qed.

Lemma addMappings_among (ids1 ids2 : list nat) (l : list (DistanceVertex num)) :
  forall this this',
    helperAmong ids1 ids2 this -> Forall (vertexAmong ids1 ids2) l ->
    addMappings this l = Ok this' ->
    helperAmong ids1 ids2 this' /\ (length (mapping this) <= length (mapping this'))%nat.
Proof.
  induction l as [|v l IH]; intros this this' H F E; cbn [addMappings] in E.
  - injection E as <-. split; [exact H | lia].
  - destruct (addMapping this (f1 v) (f2 v)) as [h|] eqn:Ea; [|discriminate E].
    cbn [bind] in E.
    pose proof (Forall_inv F) as [V1 V2]. apply Forall_inv_tail in F.
    destruct (@addMapping_among ids1 ids2 this h (f1 v) (f2 v) H V1 V2 Ea) as (Hh & Hl & _).
    destruct (IH h this' Hh F E) as [Hh' Hl'].
    split; [exact Hh' | lia].
Qed.

Lemma distanceVertices_inner_among (ids1 ids2 : list nat)
    (v1 : nat * ProgressableFeature num)
    (features2 : list (nat * ProgressableFeature num)) :
  forall acc r,
    In (fst v1) ids1 -> Forall (fun e => In (fst e) ids2) features2 ->
    Forall (vertexAmong ids1 ids2) acc ->
    distanceVertices_inner v1 features2 acc = Ok r ->
    Forall (vertexAmong ids1 ids2) r.
Proof.
  induction features2 as [|v2 rest IH]; intros acc r H1 F Hacc E;
    cbn [distanceVertices_inner] in E.
  - now injection E as <-.
  - destruct (featureDistSquared _ _) as [d|]; [|discriminate E].
    cbn [bind] in E.
    pose proof (Forall_inv F) as V2. apply Forall_inv_tail in F.
    apply (IH _ r H1 F) in E; [exact E|].
    destruct (negb _); [|exact Hacc].
    apply Forall_app. split; [exact Hacc|].
    constructor; [|constructor]. now split.
Qed.

Lemma distanceVertices_among (ids1 ids2 : list nat)
    (features1 features2 : list (nat * ProgressableFeature num)) :
  forall acc r,
    Forall (fun e => In (fst e) ids1) features1 ->
    Forall (fun e => In (fst e) ids2) features2 ->
    Forall (vertexAmong ids1 ids2) acc ->
    distanceVertices features1 features2 acc = Ok r ->
    Forall (vertexAmong ids1 ids2) r.
Proof.
  induction features1 as [|v1 rest IH]; intros acc r F1 F2 Hacc E;
    cbn [distanceVertices] in E.
  - now injection E as <-.
  - destruct (distanceVertices_inner v1 features2 acc) as [acc'|] eqn:I; [|discriminate E].
    cbn [bind] in E.
    pose proof (Forall_inv F1) as V1. apply Forall_inv_tail in F1.
    apply (IH acc' r F1 F2); [|exact E].
    exact (@distanceVertices_inner_among ids1 ids2 v1 features2 acc acc' V1 F2 Hacc I).
Qed.

Lemma sort_insert_within (P : DistanceVertex num -> Prop) (v : DistanceVertex num)
    (sorted : list (DistanceVertex num)) :
  P v -> Forall P sorted -> Forall P (sort_insert v sorted).
Proof.
  intros Hv. induction sorted as [|w sorted IH]; intros F; cbn [sort_insert].
  - now constructor.
  - destruct (_ >? _).
    + now constructor.
    + constructor; [exact (Forall_inv F) | apply IH, (Forall_inv_tail F)].
Qed.

Lemma sort_by_distance_within (P : DistanceVertex num -> Prop)
    (l : list (DistanceVertex num)) :
  Forall P l -> Forall P (sort_by_distance l).
Proof.
  unfold sort_by_distance.
  assert (G : forall sorted, Forall P sorted -> Forall P l ->
                Forall P (fold_left (fun sorted v => sort_insert v sorted) l sorted)).
  { induction l as [|v l IH]; intros sorted Hs Hl; [exact Hs|].
    cbn [fold_left]. apply IH; [|exact (Forall_inv_tail Hl)].
    apply sort_insert_within; [exact (Forall_inv Hl) | exact Hs]. }
  intros H. apply G; [constructor | exact H].
Qed.

Lemma identities_among (T : Type) (l : list (nat * T)) :
  Forall (fun e => In (fst e) (map fst l)) l.
Proof. apply Forall_forall. intros e He. now apply in_map. Qed.

(** X13: whenever [doMapping] returns, on two arrays of objects in
    which the same object may occur more than once, the mapping has at
    least one anchor and at most as many as the shorter array has
    elements, or two: an object of either array is used for one anchor
    at most, and the first pair of the sorted list is always taken. *)
Theorem doMapping_size (features1 features2 : list (nat * ProgressableFeature num)) :
  match doMappingOn features1 features2 with
  | Ok m =>
      (1 <= length m <= Nat.max 2 (Nat.min (length features1) (length features2)))%nat
  | Throw _ => True
  end.
Proof.
  unfold doMappingOn.
  destruct (distanceVertices features1 features2 [])
    as [unsorted|] eqn:D; cbn [bind]; [|exact I].
  set (ids1 := map fst features1). set (ids2 := map fst features2).
  assert (W : Forall (vertexAmong ids1 ids2) (sort_by_distance unsorted)).
  { apply sort_by_distance_within.
    apply (@distanceVertices_among ids1 ids2 features1 features2 [] unsorted); auto.
    - apply identities_among.
    - apply identities_among. }
  destruct (sort_by_distance unsorted) as [|v [|w l]].
  - unfold IdentityMapping. cbn [length]. lia.
  - cbv zeta. cbn [length]. lia.
  - cbv zeta.
    change (addMappings MappingHelper_new (v :: w :: l))
      with (bind (addMapping MappingHelper_new (f1 v) (f2 v))
                 (fun this' => addMappings this' (w :: l))).
    destruct (addMapping MappingHelper_new (f1 v) (f2 v)) as [h|] eqn:Ea; cbn [bind];
      [|exact I].
    assert (H0 : helperAmong ids1 ids2 (@MappingHelper_new num)).
    { unfold helperAmong, MappingHelper_new. cbn.
      repeat split; try constructor; intros i Hi; destruct Hi. }
    pose proof (Forall_inv W) as [V1 V2]. apply Forall_inv_tail in W.
    destruct (@addMapping_among _ _ MappingHelper_new h (f1 v) (f2 v) H0 V1 V2 Ea)
      as (Hh & _ & Hone).
    specialize (Hone eq_refl).
    destruct (addMappings h (w :: l)) as [h'|] eqn:B; cbn [bind]; [|exact I].
    destruct (@addMappings_among _ _ (w :: l) h h' Hh W B)
      as [(L1 & L2 & D1 & D2 & F1 & F2) Hl].
    pose proof (NoDup_incl_length D1 F1) as B1.
    pose proof (NoDup_incl_length D2 F2) as B2.
    unfold ids1, ids2 in B1, B2. rewrite length_map in B1, B2.
    lia.
Qed.

(** *** rectangle, fromNumVertices, circle and star *)

Lemma flat_map_length_const (T U : Type) (f : T -> list U) (k : nat) (l : list T) :
  (forall a, length (f a) = k) -> length (flat_map f l) = (k * length l)%nat.
Proof.
  intros H. induction l as [|a l IH]; cbn [flat_map length]; [lia|].
  rewrite length_app, H, IH. lia.
Qed.

(** X14: a rectangle has 8 features, a polygon of [n] vertices and
    a circle of [n] vertices have [2 n], and a star of [n] vertices per
    radius has [4 n] whenever [star] returns. *)
Theorem factories_feature_count
    (Math_cos Math_sin : num -> num) (Math_PI : num) (global_length : option nat)
    (n : nat) (width height radius innerRadius centerX centerY : num)
    (rounding : CornerRounding num) (innerRounding : option (CornerRounding num))
    (perVertexRounding : option (list (CornerRounding num))) :
  length (features (rectangle width height rounding perVertexRounding centerX centerY))
    = 8%nat /\
  length (features (fromNumVertices Math_cos Math_sin Math_PI n radius centerX centerY
                                    rounding perVertexRounding)) = (2 * n)%nat /\
  length (features (circle Math_cos Math_sin Math_PI n radius centerX centerY))
    = (2 * n)%nat /\
  match star Math_cos Math_sin Math_PI global_length n radius innerRadius rounding
             innerRounding perVertexRounding centerX centerY with
  | Ok p => length (features p) = (4 * n)%nat
  | Throw _ => True
  end.
Proof.
  assert (V : forall radius cx cy,
             length (verticesFromNumVerts Math_cos Math_sin Math_PI n radius cx cy)
             = (2 * n)%nat).
  { intros. unfold verticesFromNumVerts.
    rewrite (@flat_map_length_const _ _ _ 2) by reflexivity. now rewrite length_seq. }
  assert (Sv : length (starVerticesFromNumVerts Math_cos Math_sin Math_PI n radius
                                                innerRadius centerX centerY)
               = (4 * n)%nat).
  { unfold starVerticesFromNumVerts. cbv zeta.
    rewrite (@flat_map_length_const _ _ _ 4) by reflexivity. now rewrite length_seq. }
  assert (H2 : forall k, (2 * k / 2 = k)%nat).
  { intros k. rewrite Nat.mul_comm. apply Nat.div_mul. lia. }
  split; [|split; [|split]].
  - unfold rectangle. cbv zeta.
    now rewrite (proj1 (fromVertices_shape _ _ _ _ _)).
  - unfold fromNumVertices.
    rewrite (proj1 (fromVertices_shape _ _ _ _ _)), V, H2. reflexivity.
  - unfold circle, fromNumVertices. cbv zeta.
    rewrite (proj1 (fromVertices_shape _ _ _ _ _)), V, H2. reflexivity.
  - unfold star.
    destruct (match perVertexRounding with
              | Some _ => _
              | None => _
              end); cbn [bind]; [|exact I].
    rewrite (proj1 (fromVertices_shape _ _ _ _ _)), Sv.
    replace (4 * n)%nat with (2 * (2 * n))%nat by lia. rewrite H2. lia.
Qed.

(** *** calculateBounds *)

Lemma abscissaOf_widen (c : Cubic num) (t : num) (range : num * num) :
  abscissaOf c (fst range) /\ abscissaOf c (snd range) ->
  abscissaOf c (fst (if (t >=? ofZ 0) && (t <=? ofZ 1)
                     then widen (x (pointOnCurve c t)) range else range)) /\
  abscissaOf c (snd (if (t >=? ofZ 0) && (t <=? ofZ 1)
                     then widen (x (pointOnCurve c t)) range else range)).
Proof.
  intros [Hlo Hhi].
  destruct ((t >=? ofZ 0) && (t <=? ofZ 1)) eqn:E; [|now split].
  assert (Ht : abscissaOf c (x (pointOnCurve c t))).
  { right. right. right. exists t. now split. }
  unfold widen. cbn [fst snd].
  split; [destruct (_ <? _) | destruct (_ >? _)]; assumption.
Qed.


End FurtherLaws.

(** ** Further evaluations in binary64 *)

Section FurtherRuns.
Local Open Scope float_scope.
#[local] Set Warnings "-inexact-float".

(** A list of one edge and no corner against [features2]. *)
Lemma featureMapper_without_corners_witness :
  (forallb (fun f => negb (instanceof_Corner (feature f)))
           [mkProgressableFeature 0.25 (Edge [line3])] = true \/
   forallb (fun f => negb (instanceof_Corner (feature f))) features2 = true) /\
  featureMapper [mkProgressableFeature 0.25 (Edge [line3])] features2 =
    Ok (DoubleMapper_new IdentityMapping).
Proof.
  split; [left; reflexivity|].
  apply featureMapper_without_corners. left. reflexivity.
Defined.

(** The square of side 200 about the origin, its corners rounded by 50. *)
Lemma fromVertices_features_witness :
  Nat.even (length [100; 100; -100; 100; -100; -100; 100; -100]) = true /\
  cornersAndEdges 4
    (features (fromVertices [100; 100; -100; 100; -100; -100; 100; -100]
                            (mkCornerRounding 50 0) None 0 0)).
Proof.
  split; [reflexivity|].
  apply (fromVertices_features [100; 100; -100; 100; -100; -100; 100; -100]
                               (mkCornerRounding 50 0) None 0 0).
  reflexivity.
Defined.

Lemma measurePolygon_fromVertices_witness :
  Nat.even (length [100; 100; -100; 100; -100; -100; 100; -100]) = true /\
  match measurePolygon LengthMeasurer
          (fromVertices [100; 100; -100; 100; -100; -100; 100; -100]
                        (mkCornerRounding 50 0) None 0 0) with
  | Ok p =>
      measuredFeatures p = [] /\
      forall features2,
        featureMapper (measuredFeatures p) features2 = Ok (DoubleMapper_new IdentityMapping)
  | Throw _ => True
  end.
Proof.
  split; [reflexivity|].
  apply (measurePolygon_fromVertices LengthMeasurer
           [100; 100; -100; 100; -100; -100; 100; -100] (mkCornerRounding 50 0) None 0 0).
  reflexivity.
Defined.

(** *** doMapping *)

(** The same object twice in the first array: its second occurrence is in
    [usedF1] by then and is skipped.  Two distinct objects of the same
    content are not: the second one is looked up in the mapping, found,
    and the read at the negative index that follows throws. *)
Example doMapping_repeated_object :
  let a := mkProgressableFeature 0.1 (cornerAt64 0 0) in
  let b := mkProgressableFeature 0.5 (cornerAt64 10 0) in
  let features2 :=
    [mkProgressableFeature 0.1 (cornerAt64 0 0);
     mkProgressableFeature 0.5 (cornerAt64 10 1);
     mkProgressableFeature 0.3 (cornerAt64 0 3)] in
  doMappingOn [(0%nat, a); (1%nat, b); (0%nat, a)] (enumerate features2) =
    Ok [(0.5, 0.5); (0.1, 0.1)] /\
  doMappingOn [(0%nat, a); (1%nat, b); (2%nat, a)] (enumerate features2) =
    Throw "TypeError: cannot destructure undefined".
Proof. split; reflexivity. Qed.

End FurtherRuns.

(** ** Further laws in exact arithmetic *)

Section FurtherExact.
Local Open Scope R_scope.

(** *** calculateBounds *)

(** X28: the bottom bound [calculateBounds] computes exactly can
    lie beyond the curve: for the ordinates, the second root is tested with
    [2 >= 0] in the place of [t2 >= 0], so a root below 0 widens the
    bounds.  There is a cubic, not of zero length, whose points all have an
    ordinate of 0 at most and whose bottom bound is 7/2. *)
Theorem calculateBounds_y_overshoots :
  exists c : Cubic R,
    zeroLength c = false /\
    (forall t, 0 <= t <= 1 -> y (pointOnCurve c t) <= 0) /\
    boundsBottom (Cubic_calculateBounds c false) = 7 / 2.
Proof.
  exists (mkCubic 0 0 1 (-2) 2 (-9 / 2) 3 (-13 / 2)).
  assert (Hz : zeroLength (mkCubic 0 0 1 (-2) 2 (-9 / 2) 3 (-13 / 2)) = false).
  { unfold zeroLength. cbn [anchor0X anchor1X anchor0Y anchor1Y].
    apply andb_false_iff. left. cbn. apply ltb_false.
    unfold Rabs. destruct (Rcase_abs _); lra. }
  split; [exact Hz|]. split.
  - intros t Ht. unfold pointOnCurve. cbn.
    assert (0 <= t * t) by nra. assert (0 <= t * t * t) by nra.
    assert (t * t <= t) by nra. assert (t * t * t <= t * t) by nra.
    nra.
  - unfold Cubic_calculateBounds. rewrite Hz. cbv zeta.
    cbn [boundsBottom anchor0X anchor1X anchor0Y anchor1Y control0X control0Y
         control1X control1Y].
    assert (Hya : zeroIsh (nadd (nsub (nadd (nopp 0) (nmul (ofZ 3) (-2)))
                                       (nmul (ofZ 3) (-9 / 2))) (-13 / 2)) = false).
    { unfold zeroIsh. cbn. apply ltb_false. unfold Rabs. destruct (Rcase_abs _); lra. }
    rewrite Hya.
    change (@nmin R exactR) with Rmin. change (@nmax R exactR) with Rmax.
    cbn [nle nlt nadd nsub nmul ndiv nopp nsqrt ofZ exactR].
    replace (2 * 0 - 4 * -2 + 2 * (-9 / 2)) with (-1) by lra.
    replace (- 0 + 3 * -2 - 3 * (-9 / 2) + -13 / 2) with 1 by lra.
    replace (- 0 + -2) with (-2) by lra.
    replace (-1 * -1 - 4 * 1 * -2) with (3 * 3) by lra.
    rewrite sqrt_square by lra.
    replace ((- -1 + 3) / (2 * 1)) with 2 by lra.
    replace ((- -1 - 3) / (2 * 1)) with (-1) by lra.
    rewrite (@leb_true 0 (3 * 3)) by lra.
    rewrite (@leb_true 0 2) by lra.
    rewrite (@leb_true (-1) 1) by lra.
    rewrite (@leb_false 2 1) by lra.
    cbn [andb]. unfold widen. cbn [fst snd].
    unfold pointOnCurve. cbn [y anchor0Y anchor1Y control0Y control1Y nadd nsub nmul ndiv
                              nlt ofZ exactR].
    unfold Rmax. destruct (Rle_dec 0 (-13 / 2)); [lra|].
    rewrite ltb_true; lra.
Qed.

(** *** morph.ts: the loop of match *)

Section MatchLoop.
Variables bs1 bs2 : MeasuredPolygon R.
Variable doubleMapper : DoubleMapper R.
Variable polygon2CutPoint : R.

Ltac finish :=
  unfold cursorsInRange, turnsLeft; cbn [i1 i2 b1 b2 ret];
  rewrite length_app; cbn [length];
  repeat split;
  first [ lia
        | intros _; assumption
        | let Hn := fresh in intros Hn; apply nth_error_Some in Hn; lia ].

Lemma match_step_advances (st st' : MatchState R) (cur1 cur2 : MeasuredCubic R) :
  b1 st = Some cur1 -> b2 st = Some cur2 -> cursorsInRange bs1 bs2 st ->
  match_step bs1 bs2 doubleMapper polygon2CutPoint st cur1 cur2 = Ok st' ->
  cursorsInRange bs1 bs2 st' /\ (turnsLeft bs1 bs2 st' < turnsLeft bs1 bs2 st)%nat /\
  length (ret st') = S (length (ret st)).
Proof.
  intros E1 E2 [I1 I2] H.
  specialize (I1 ltac:(congruence)). specialize (I2 ltac:(congruence)).
  unfold match_step in H.
  set (b1a := if Nat.eqb (i1 st) _ then _ else _) in H.
  destruct (if Nat.eqb (i2 st) _ then _ else _) as [b2a|] in H; [|discriminate H].
  cbn [bind] in H.
  change (@nmin R exactR) with Rmin in H.
  change (@nlt R exactR) with ExactR.ltb in H.
  change (@nadd R exactR) with Rplus in H.
  assert (He : 0 < AngleEpsilon).
  { unfold AngleEpsilon. cbn. lra. }
  unfold ExactR.ltb in H.
  destruct (Rlt_dec (Rmin b1a b2a + AngleEpsilon) b1a) as [C1|C1];
    destruct (Rlt_dec (Rmin b1a b2a + AngleEpsilon) b2a) as [C2|C2].
  - exfalso. unfold Rmin in C1, C2. destruct (Rle_dec b1a b2a); lra.
  - destruct (cutAtProgress _ _ _) as [[a b]|] in H; [|discriminate H].
    cbn [bind] in H. injection H as <-. finish.
  - cbn [bind] in H.
    destruct (DoubleMapper_map _ _) as [m|] in H; [|discriminate H].
    cbn [bind] in H.
    destruct (cutAtProgress _ _ _) as [[a b]|] in H; [|discriminate H].
    cbn [bind] in H. injection H as <-. finish.
  - cbn [bind] in H. injection H as <-. finish.
Qed.

Lemma match_loop_runs (fuel : nat) :
  forall st : MatchState R,
    cursorsInRange bs1 bs2 st -> (turnsLeft bs1 bs2 st <= fuel + 1)%nat ->
    exists r,
      match_loop fuel bs1 bs2 doubleMapper polygon2CutPoint st = Some r /\
      match r with
      | Ok l => (length l + 1 <= length (ret st) + Nat.max 1 (turnsLeft bs1 bs2 st))%nat
      | Throw _ => True
      end.
Proof.
  induction fuel as [|fuel IH]; intros st Hin Hf.
  - destruct (b1 st) as [cur1|] eqn:E1; [destruct (b2 st) as [cur2|] eqn:E2|].
    + exfalso. destruct Hin as [I1 I2].
      specialize (I1 ltac:(congruence)). specialize (I2 ltac:(congruence)).
      unfold turnsLeft in Hf. lia.
    + cbn [match_loop]. rewrite E1, E2. eexists. split; [reflexivity|]. cbv beta iota. lia.
    + cbn [match_loop]. rewrite E1. eexists. split; [reflexivity|]. cbv beta iota. lia.
  - cbn [match_loop].
    destruct (b1 st) as [cur1|] eqn:E1; [destruct (b2 st) as [cur2|] eqn:E2|].
    + destruct (match_step bs1 bs2 doubleMapper polygon2CutPoint st cur1 cur2)
        as [st'|m] eqn:E.
      * destruct (match_step_advances E1 E2 Hin E) as [Hin' [Hlt Hlen]].
        destruct (IH st' Hin' ltac:(lia)) as [r [Hr Hl]].
        exists r. split; [exact Hr|].
        destruct r as [l|]; [|exact I].
        destruct Hin as [I1 I2].
        specialize (I1 ltac:(congruence)). specialize (I2 ltac:(congruence)).
        unfold turnsLeft in *. lia.
      * eexists. split; [reflexivity | exact I].
    + eexists. split; [reflexivity|]. cbv beta iota. lia.
    + eexists. split; [reflexivity|]. cbv beta iota. lia.
Qed.

End MatchLoop.

(** X29: the loop of [match] ends: started as [match] starts it,
    it returns or throws within as many turns as the two polygons have
    measured cubics together, and the list it returns has fewer pairs than
    that.  At each turn at least one of the two current cubics is taken
    whole, never both cut. *)
Theorem match_loop_terminates (bs1 bs2 : MeasuredPolygon R) (doubleMapper : DoubleMapper R)
    (polygon2CutPoint : R) :
  let n1 := length (measuredCubics bs1) in
  let n2 := length (measuredCubics bs2) in
  exists r,
    match_loop (n1 + n2) bs1 bs2 doubleMapper polygon2CutPoint
      (mkMatchState 1 1 (nth_error (measuredCubics bs1) 0)
                    (nth_error (measuredCubics bs2) 0) []) = Some r /\
    match r with
    | Ok l => (length l <= n1 + n2 - 1)%nat
    | Throw _ => True
    end.
Proof.
  cbv zeta.
  set (st := mkMatchState 1 1 (nth_error (measuredCubics bs1) 0)
                          (nth_error (measuredCubics bs2) 0) []).
  destruct (@match_loop_runs bs1 bs2 doubleMapper polygon2CutPoint
              (length (measuredCubics bs1) + length (measuredCubics bs2)) st)
    as [r [Hr Hl]].
  - unfold cursorsInRange, st. cbn [i1 i2 b1 b2].
    split; intros Hn; apply nth_error_Some in Hn; lia.
  - unfold turnsLeft, st. cbn [i1 i2]. lia.
  - exists r. split; [exact Hr|].
    destruct r as [l|]; [|exact I].
    unfold turnsLeft, st in Hl. cbn [i1 i2 ret length] in Hl. lia.
Qed.

End FurtherExact.
